(** * tswrite: the paced transport-stream writer of tstools

    A shallow embedding of [tswrite.c]: the circular buffer shared by the
    parent (producer) and the child (consumer), the time stamps the parent
    assigns to each buffer item (from PCRs, or from the requested byte rate),
    the child's pacing loop, the direct (unbuffered) write paths, the command
    reader and the packet-dropping test knob of [tswrite_write].

    Conventions.
    - C integers are [Z]; where the code relies on a width the wrap-around is
      written out ([wrap_uint32], [wrap_int32], [wrap_uint64]).
    - C [double]s are the kernel's binary64 floats ([PrimFloat.float]).
    - Arrays are lists read and written by index (stdpp's [!!] and
      [<[_:=_]>]); an update outside the array leaves it unchanged.
    - [static] locals of a C function become a record passed in and out.
    - What a process does to the outside world (sleeping, sending, writing a
      file, committing or releasing a buffer slot) is a list of [event]s. *)

From Stdlib Require Import ZArith Lia List Bool Floats.
From Stdlib Require Uint63.
From Stdlib Require Import Strings.Byte.
From stdpp Require Import base list.
Import ListNotations.
Local Open Scope Z_scope.

(** ** Machine arithmetic *)

Definition wrap_uint32 (z : Z) : Z := z mod 2 ^ 32.
Definition wrap_int32 (z : Z) : Z := (z + 2 ^ 31) mod 2 ^ 32 - 2 ^ 31.
Definition wrap_uint64 (z : Z) : Z := z mod 2 ^ 64.

(** C's [%] on [int]: the remainder of the truncating division. *)
Definition c_rem (a b : Z) : Z := Z.rem a b.

(** Modelled from the spec: [TS_PACKET_SIZE] is declared in a header that is
    not among the sources; the spec has "188-byte TS packets". *)
Definition TS_PACKET_SIZE : Z := 188.

(** The sync byte a transport-stream packet starts with, the [0x47] of
    [write_socket_data]. *)
Definition TS_SYNC_BYTE : byte := x47.

(** Modelled from the spec: [MAX_TS_PACKETS_IN_ITEM] is declared in
    [tswrite_defns.h], which is not among the sources; the spec gives
    "packets_per_item K: 7 -- max 7". It only sizes the [packet] array. *)
Definition MAX_TS_PACKETS_IN_ITEM : Z := 7.

(** ** Doubles *)

Module Dbl.

(** [(double) i] for a (signed) [int]. *)
Definition of_int (z : Z) : float :=
  if z <? 0 then PrimFloat.opp (PrimFloat.of_uint63 (Uint63.of_Z (- z)))
  else PrimFloat.of_uint63 (Uint63.of_Z z).

(** [(double) u] for a [uint32_t]. *)
Definition of_uint32 (z : Z) : float := PrimFloat.of_uint63 (Uint63.of_Z z).

(** [(double) u] for a [uint64_t]: values of 2^63 and above are halved
    with a sticky bit, converted and doubled, which rounds once. *)
Definition of_uint64 (z : Z) : float :=
  if z <? 2 ^ 63 then PrimFloat.of_uint63 (Uint63.of_Z z)
  else (PrimFloat.of_uint63 (Uint63.of_Z (Z.lor (Z.shiftr z 1) (Z.land z 1)))
        * 2.0)%float.

(** The integral part of a double, towards zero (0 for an infinity or a
    NaN, which C leaves undefined). *)
Definition trunc (f : float) : Z :=
  match Prim2SF f with
  | S754_finite s m e => (if s then -1 else 1) * Z.shiftl (Zpos m) e
  | _ => 0
  end.

(** [(uint32_t) f] and [(uint64_t) f]. C defines the conversion when the
    integral part fits the type; outside that range the model keeps the
    low bits, as the conversion through a 64-bit register does. *)
Definition to_uint32 (f : float) : Z := wrap_uint32 (trunc f).
Definition to_uint64 (f : float) : Z := wrap_uint64 (trunc f).

(** [f] is not below zero: a NaN is not, and neither is a zero of either
    sign. *)
Definition not_negative (f : float) : Prop := (f <? 0)%float = false.

(** The sign bit of [f] is clear, or [f] is a NaN. *)
Definition sf_sign_clear (x : spec_float) : bool :=
  match x with
  | S754_nan => true
  | S754_zero s | S754_infinity s | S754_finite s _ _ => negb s
  end.

Definition sign_clear (f : float) : Prop := sf_sign_clear (Prim2SF f) = true.

(** [(uint32_t) f] is defined: [f] is a number and its integral part is a
    [uint32_t]. *)
Definition converts_to_uint32 (f : float) : Prop :=
  match Prim2SF f with
  | S754_zero _ | S754_finite _ _ _ => 0 <= trunc f < 2 ^ 32
  | _ => False
  end.

End Dbl.

(** ** The circular buffer (shared memory) *)

(** [struct circular_buffer_item]: the time (microseconds, [uint32_t]) at
    which the parent would like the item sent, the discontinuity flag and the
    number of bytes in the item. The structures are declared in
    [tswrite_defns.h]; the fields are those [tswrite.c] reads and writes. *)
Record circular_buffer_item := mk_item {
  item_time : Z;
  item_discontinuity : bool;
  item_length : Z
}.

(** [struct circular_buffer]. [end] is a keyword, hence [cb_end]; the other
    fields carry the prefix too. [cb_item_data] is the byte array of
    [size * item_size] bytes that follows the items in the mapping. *)
Record circular_buffer := mk_circular {
  cb_start : Z;
  cb_end : Z;
  cb_size : Z;
  cb_TS_in_item : Z;
  cb_item_size : Z;
  cb_maxnowait : Z;
  cb_waitfor : Z;
  cb_item_data : list byte;
  cb_item : list circular_buffer_item
}.

Definition set_start (c : circular_buffer) (v : Z) : circular_buffer :=
  mk_circular v (cb_end c) (cb_size c) (cb_TS_in_item c) (cb_item_size c)
    (cb_maxnowait c) (cb_waitfor c) (cb_item_data c) (cb_item c).

Definition set_end (c : circular_buffer) (v : Z) : circular_buffer :=
  mk_circular (cb_start c) v (cb_size c) (cb_TS_in_item c) (cb_item_size c)
    (cb_maxnowait c) (cb_waitfor c) (cb_item_data c) (cb_item c).

Definition set_item_data (c : circular_buffer) (d : list byte) : circular_buffer :=
  mk_circular (cb_start c) (cb_end c) (cb_size c) (cb_TS_in_item c)
    (cb_item_size c) (cb_maxnowait c) (cb_waitfor c) d (cb_item c).

Definition set_item (c : circular_buffer) (l : list circular_buffer_item)
  : circular_buffer :=
  mk_circular (cb_start c) (cb_end c) (cb_size c) (cb_TS_in_item c)
    (cb_item_size c) (cb_maxnowait c) (cb_waitfor c) (cb_item_data c) l.

(** [circular->item[i]] read; freshly mapped memory reads as zero. *)
Definition zero_item : circular_buffer_item := mk_item 0 false 0.

Definition get_item (c : circular_buffer) (i : Z) : circular_buffer_item :=
  default zero_item (cb_item c !! Z.to_nat i).

(** [circular->item[i].time = t] and [circular->item[i].length = n]. *)
Definition store_item_time (c : circular_buffer) (i t : Z) : circular_buffer :=
  let it := get_item c i in
  set_item c (<[Z.to_nat i := mk_item t (item_discontinuity it) (item_length it)]>
                (cb_item c)).

Definition store_item_length (c : circular_buffer) (i n : Z) : circular_buffer :=
  let it := get_item c i in
  set_item c (<[Z.to_nat i := mk_item (item_time it) (item_discontinuity it) n]>
                (cb_item c)).

(** [circular->item_data[off]] read, and the [n] bytes from [off]. *)
Definition data_byte (c : circular_buffer) (off : Z) : byte :=
  default x00 (cb_item_data c !! Z.to_nat off).

Definition data_bytes (c : circular_buffer) (off n : Z) : list byte :=
  take (Z.to_nat n) (drop (Z.to_nat off) (cb_item_data c)).

(** [circular->item_data[off] = b]. *)
Definition store_data_byte (c : circular_buffer) (off : Z) (b : byte)
  : circular_buffer :=
  set_item_data c (<[Z.to_nat off := b]> (cb_item_data c)).

(** [memcpy(&item_data[off], src, n)]: byte by byte, within the mapping. *)
Fixpoint copy_at (off : nat) (src : list byte) (dst : list byte) : list byte :=
  match src with
  | [] => dst
  | b :: rest => copy_at (S off) rest (<[off := b]> dst)
  end.

Definition memcpy_data (c : circular_buffer) (off : Z) (src : list byte) (n : Z)
  : circular_buffer :=
  set_item_data c (copy_at (Z.to_nat off) (take (Z.to_nat n) src) (cb_item_data c)).

(** [map_circular_buffer]: the fresh mapping, zero-filled, with [start = 1]
    and [end = 0]. (A failed [mmap] makes the C function return 1 before any
    of this exists.) *)
Definition map_circular_buffer (circ_buf_size TS_in_packet maxnowait waitfor : Z)
  : circular_buffer :=
  {| cb_start := 1;
     cb_end := 0;
     cb_size := circ_buf_size;
     cb_TS_in_item := TS_in_packet;
     cb_item_size := TS_in_packet * TS_PACKET_SIZE;
     cb_maxnowait := maxnowait;
     cb_waitfor := waitfor;
     cb_item_data :=
       replicate (Z.to_nat (circ_buf_size * TS_in_packet * TS_PACKET_SIZE)) x00;
     cb_item := replicate (Z.to_nat circ_buf_size) zero_item |}.

(** [circular_buffer_empty] and [circular_buffer_full]. *)
Definition circular_buffer_empty (circular : circular_buffer) : bool :=
  cb_start circular =? c_rem (cb_end circular + 1) (cb_size circular).

Definition circular_buffer_full (circular : circular_buffer) : bool :=
  c_rem (cb_end circular + 2) (cb_size circular) =? cb_start circular.

(** ** The buffered output context (parent side) *)

(** One entry of [writer->packet[]]: what the parent remembers of each packet
    of the open item. *)
Record TS_packet_info := mk_packet_info {
  pi_index : Z;
  pi_pid : Z;
  pi_got_pcr : bool;
  pi_pcr : Z
}.

Definition no_packet_info : TS_packet_info := mk_packet_info 0 0 false 0.

(** [struct buffered_TS_output], without the pointer to the circular buffer
    (the buffer is shared with the child and is passed alongside). *)
Record buffered_TS_output := mk_writer {
  w_started : bool;
  w_which : Z;
  w_num_packets : Z;
  w_rate : Z;
  w_use_pcrs : bool;
  w_prime_size : Z;
  w_prime_speedup : Z;
  w_pcr_scale : float;
  w_packet : list TS_packet_info
}.

(** [build_buffered_TS_output]: the circular buffer and the writer on it. *)
Definition build_buffered_TS_output
  (circ_buf_size TS_in_packet maxnowait waitfor rate : Z) (use_pcrs : bool)
  (prime_size prime_speedup : Z) (pcr_scale : float)
  : buffered_TS_output * circular_buffer :=
  let circular := map_circular_buffer circ_buf_size TS_in_packet maxnowait waitfor in
  ({| w_started := false;
      w_which := c_rem (cb_end circular + 1) (cb_size circular);
      w_num_packets := 0;
      w_rate := rate;
      w_use_pcrs := use_pcrs;
      w_prime_size := prime_size;
      w_prime_speedup := prime_speedup;
      w_pcr_scale := pcr_scale;
      w_packet := replicate (Z.to_nat MAX_TS_PACKETS_IN_ITEM) no_packet_info |},
   circular).

(** ** Timing *)

(** The [static] locals of [set_buffer_item_time_pcr]. *)
Record pcr_timing := mk_pcr_timing {
  available_bytes : Z;            (* int32_t *)
  available_time : float;
  last_pcr_index : Z;             (* int *)
  last_pcr : Z;                   (* uint64_t *)
  pcr_rate : float;
  last_timestamp_near_PCR : Z;    (* uint32_t *)
  last_timestamp : Z;             (* uint32_t *)
  had_first_pcr : bool;
  had_second_pcr : bool;
  initial_prime_time : float;
  initial_prime_bytes : Z;        (* int32_t *)
  total_available_bytes : Z;      (* int64_t *)
  total_available_time : float;
  num_availables : Z
}.

(** Their initial values. *)
Definition pcr_timing_init : pcr_timing :=
  {| available_bytes := 0; available_time := 0%float;
     last_pcr_index := -1; last_pcr := 0; pcr_rate := 0%float;
     last_timestamp_near_PCR := 0; last_timestamp := 0;
     had_first_pcr := false; had_second_pcr := false;
     initial_prime_time := 0%float; initial_prime_bytes := 0;
     total_available_bytes := 0; total_available_time := 0%float;
     num_availables := 0 |}.

(** The loop over [writer->packet[0 .. num_packets-1]] that stops at the first
    entry with [got_pcr]: its position [ii] and the entry. *)
Fixpoint first_pcr_from (ii : nat) (packets : list TS_packet_info)
  : option (nat * TS_packet_info) :=
  match packets with
  | [] => None
  | p :: rest => if pi_got_pcr p then Some (ii, p) else first_pcr_from (S ii) rest
  end.

Definition find_pcr (writer : buffered_TS_output) : option (nat * TS_packet_info) :=
  first_pcr_from 0 (take (Z.to_nat (w_num_packets writer)) (w_packet writer)).

Module PcrTiming.

(** The locals of [set_buffer_item_time_pcr], in the order the function
    computes them. *)
Section Locals.
Variable writer : buffered_TS_output.
Variable circular : circular_buffer.
Variable s : pcr_timing.

(** [if (pcr_rate < 1.0) pcr_rate = writer->rate;] *)
Definition rate0 : float :=
  if (pcr_rate s <? 1.0)%float then Dbl.of_int (w_rate writer) else pcr_rate s.

(** [if (available_bytes <= 0 || available_time <= 0)]: seed the pool. *)
Definition priming : bool :=
  (available_bytes s <=? 0) || (available_time s <=? 0)%float.

Definition primed_bytes : Z :=
  if priming
  then wrap_int32 (TS_PACKET_SIZE * cb_TS_in_item circular * w_prime_size writer)
  else available_bytes s.

Definition primed_time : float :=
  if priming
  then (Dbl.of_int primed_bytes * 1000000.0
        / (rate0 * Dbl.of_int (w_prime_speedup writer) / 100.0))%float
  else available_time s.

Definition prime_time0 : float :=
  if priming && negb (had_second_pcr s) then primed_time
  else initial_prime_time s.

Definition prime_bytes0 : Z :=
  if priming && negb (had_second_pcr s) then primed_bytes
  else initial_prime_bytes s.

(** "Output our bytes using the prevailing conditions". *)
Definition num_bytes : Z := wrap_int32 (TS_PACKET_SIZE * w_num_packets writer).

Definition num_microseconds : float :=
  (Dbl.of_int num_bytes / Dbl.of_int primed_bytes * primed_time)%float.

Definition timestamp : Z :=
  Dbl.to_uint32 (Dbl.of_uint32 (last_timestamp s) + num_microseconds)%float.

Definition spent_bytes : Z := wrap_int32 (primed_bytes - num_bytes).
Definition spent_time : float := (primed_time - num_microseconds)%float.

(** The second-or-later PCR [p]: the rate it gives and what it adds. *)
Definition delta_pcr (p : TS_packet_info) : Z := wrap_uint64 (pi_pcr p - last_pcr s).

Definition delta_bytes (p : TS_packet_info) : Z :=
  wrap_int32 (wrap_int32 (pi_index p - last_pcr_index s) * TS_PACKET_SIZE).

Definition new_rate (p : TS_packet_info) : float :=
  (Dbl.of_int (delta_bytes p) * 27.0 / Dbl.of_uint64 (delta_pcr p)
   * Dbl.of_int 1000000)%float.

Definition extra_time (p : TS_packet_info) : float :=
  (Dbl.of_int (delta_bytes p) * 1000000.0 / new_rate p)%float.

Definition gained_bytes (p : TS_packet_info) : Z :=
  wrap_int32 (spent_bytes + delta_bytes p).

Definition gained_time (p : TS_packet_info) : float :=
  (spent_time + extra_time p)%float.

(** "RE-PRIMING" on the second PCR. *)
Definition reprimed_time (p : TS_packet_info) : float :=
  (gained_time p - prime_time0
   + Dbl.of_int prime_bytes0 * 1000000.0 / new_rate p)%float.

(** The statics after the [if (found_pcr)] block for the PCR [p]. *)
Definition after_pcr (p : TS_packet_info) : pcr_timing :=
  if pi_pcr p <? last_pcr s then
    (* a discontinuity: start again, and force repriming *)
    mk_pcr_timing 0 0%float (pi_index p) (pi_pcr p) rate0 timestamp
      (last_timestamp s) false false prime_time0 prime_bytes0
      (total_available_bytes s) (total_available_time s) (num_availables s)
  else if negb (had_first_pcr s) then
    (* the first PCR: remember it *)
    mk_pcr_timing spent_bytes spent_time (pi_index p) (pi_pcr p) rate0
      timestamp (last_timestamp s) true (had_second_pcr s)
      prime_time0 prime_bytes0
      (total_available_bytes s) (total_available_time s) (num_availables s)
  else if negb (had_second_pcr s) then
    (* the second PCR: replace the initial priming *)
    mk_pcr_timing (gained_bytes p) (reprimed_time p) (pi_index p) (pi_pcr p)
      (new_rate p) timestamp (last_timestamp s) true true
      prime_time0 prime_bytes0 0 0%float 0
  else
    mk_pcr_timing (gained_bytes p) (gained_time p) (pi_index p) (pi_pcr p)
      (new_rate p) timestamp (last_timestamp s) true true
      prime_time0 prime_bytes0
      (total_available_bytes s + gained_bytes p)
      (total_available_time s + gained_time p)%float
      (num_availables s + 1).

(** The statics when the item holds no PCR. *)
Definition without_pcr : pcr_timing :=
  mk_pcr_timing spent_bytes spent_time (last_pcr_index s) (last_pcr s) rate0
    (last_timestamp_near_PCR s) (last_timestamp s)
    (had_first_pcr s) (had_second_pcr s) prime_time0 prime_bytes0
    (total_available_bytes s) (total_available_time s) (num_availables s).

End Locals.

(** [last_timestamp = ...] *)
Definition with_last_timestamp (s : pcr_timing) (t : Z) : pcr_timing :=
  mk_pcr_timing (available_bytes s) (available_time s) (last_pcr_index s)
    (last_pcr s) (pcr_rate s) (last_timestamp_near_PCR s) t
    (had_first_pcr s) (had_second_pcr s) (initial_prime_time s)
    (initial_prime_bytes s) (total_available_bytes s)
    (total_available_time s) (num_availables s).

End PcrTiming.

(** [set_buffer_item_time_pcr]: the statics afterwards, and the buffer with
    the time of item [writer->which] set. *)
Definition set_buffer_item_time_pcr (writer : buffered_TS_output)
  (circular : circular_buffer) (s : pcr_timing) : pcr_timing * circular_buffer :=
  let timestamp := PcrTiming.timestamp writer circular s in
  let s' :=
    match find_pcr writer with
    | Some (_, p) => PcrTiming.after_pcr writer circular s p
    | None => PcrTiming.without_pcr writer circular s
    end in
  (PcrTiming.with_last_timestamp s' timestamp,
   store_item_time circular (w_which writer) timestamp).

(** [set_buffer_item_time_plain], whose only static is [last_time]. *)
Definition plain_elapsed_time (writer : buffered_TS_output) : Z :=
  let num_bytes := wrap_int32 (w_num_packets writer * TS_PACKET_SIZE) in
  Dbl.to_uint32 (Dbl.of_int num_bytes * 1000000.0 / Dbl.of_int (w_rate writer))%float.

Definition set_buffer_item_time_plain (writer : buffered_TS_output)
  (circular : circular_buffer) (last_time : Z) : Z * circular_buffer :=
  let last_time' := wrap_uint32 (last_time + plain_elapsed_time writer) in
  (last_time', store_item_time circular (w_which writer) last_time').

(** The statics of both timing functions. *)
Record timing := mk_timing {
  tm_pcr : pcr_timing;
  tm_last_time : Z
}.

Definition timing_init : timing := mk_timing pcr_timing_init 0.

(** [set_buffer_item_time] *)
Definition set_buffer_item_time (writer : buffered_TS_output)
  (circular : circular_buffer) (t : timing) : timing * circular_buffer :=
  if w_use_pcrs writer then
    let '(s', c') := set_buffer_item_time_pcr writer circular (tm_pcr t) in
    (mk_timing s' (tm_last_time t), c')
  else
    let '(l', c') := set_buffer_item_time_plain writer circular (tm_last_time t) in
    (mk_timing (tm_pcr t) l', c').

(** ** What the two processes do to the world *)

Inductive event :=
| EvCommit (slot : Z)            (* circular->end = slot: the item is the child's *)
| EvRelease (slot : Z)           (* circular->start moves past slot *)
| EvWait (microseconds : Z)      (* wait_microseconds(microseconds) *)
| EvSend (data : list byte)      (* send(output, data, ...) *)
| EvFwrite (data : list byte).   (* fwrite(data, ...) *)

(** A call that may have to wait for the other process: [Done] with its
    result, or [Waiting] in the polling loop ([wait_if_buffer_full],
    [wait_if_buffer_empty], [wait_for_buffer_to_fill]) with the state reached
    so far. The loop ends when the other process moves the buffer on; the
    parent's also ends, with an error, after [PARENT_GIVE_UP_AFTER] polls. *)
Inductive outcome (A : Type) :=
| Done (a : A)
| Waiting (a : A).
Arguments Done {A} a.
Arguments Waiting {A} a.

(** ** Parent: filling the circular buffer *)

Record parent := mk_parent {
  p_writer : buffered_TS_output;
  p_timing : timing
}.

Definition set_writer_packet0_no_pcr (l : list TS_packet_info) : list TS_packet_info :=
  match l with
  | [] => []
  | p :: rest => mk_packet_info (pi_index p) (pi_pid p) false (pi_pcr p) :: rest
  end.

(** [internal_flush_buffered_TS_output] *)
Definition internal_flush_buffered_TS_output (p : parent) (circular : circular_buffer)
  : parent * circular_buffer * list event :=
  let writer := p_writer p in
  let '(t', c1) := set_buffer_item_time writer circular (p_timing p) in
  let c2 := set_end c1 (w_which writer) in
  let writer' :=
    {| w_started := false;
       w_which := c_rem (cb_end c2 + 1) (cb_size c2);
       w_num_packets := 0;
       w_rate := w_rate writer;
       w_use_pcrs := w_use_pcrs writer;
       w_prime_size := w_prime_size writer;
       w_prime_speedup := w_prime_speedup writer;
       w_pcr_scale := w_pcr_scale writer;
       w_packet := set_writer_packet0_no_pcr (w_packet writer) |} in
  (mk_parent writer' t', c2, [EvCommit (w_which writer)]).

(** The end-of-file marker: an item of length 1 whose first byte is 1. *)
Definition EOF_BYTE : byte := x01.

(** [add_eof_entry] *)
Definition add_eof_entry (p : parent) (circular : circular_buffer)
  : outcome (parent * circular_buffer * list event) :=
  if circular_buffer_full circular then Waiting (p, circular, [])
  else
    let data_pos := c_rem (cb_end circular + 1) (cb_size circular) in
    let '(t', c1) := set_buffer_item_time (p_writer p) circular (p_timing p) in
    let c2 := store_data_byte c1 (data_pos * cb_item_size c1) EOF_BYTE in
    let c3 := store_item_length c2 data_pos 1 in
    let c4 := set_end c3 data_pos in
    Done (mk_parent (p_writer p) t', c4, [EvCommit data_pos]).

(** [write_EOF_to_buffered_TS_output] *)
Definition write_EOF_to_buffered_TS_output (p : parent) (circular : circular_buffer)
  : outcome (parent * circular_buffer * list event) :=
  let which := w_which (p_writer p) in
  let length := item_length (get_item circular which) in
  let '(p1, c1, ev1) :=
    if w_started (p_writer p) && (0 <? length)
    then internal_flush_buffered_TS_output p circular
    else (p, circular, []) in
  match add_eof_entry p1 c1 with
  | Done (p2, c2, ev2) => Done (p2, c2, ev1 ++ ev2)
  | Waiting (p2, c2, ev2) => Waiting (p2, c2, ev1 ++ ev2)
  end.

(** [write_to_buffered_TS_output]: [packet] is the TS packet, [count] its
    index in the input stream. *)
Definition write_to_buffered_TS_output (p : parent) (circular : circular_buffer)
  (packet : list byte) (count pid : Z) (got_pcr : bool) (pcr : Z)
  : outcome (parent * circular_buffer * list event) :=
  let writer := p_writer p in
  let which := w_which writer in
  if negb (w_started writer) && circular_buffer_full circular
  then Waiting (p, circular, [])
  else
    (* on a new item: started = TRUE, num_packets = 0, length = 0 *)
    let num_packets0 := if w_started writer then w_num_packets writer else 0 in
    let c0 := if w_started writer then circular
              else store_item_length circular which 0 in
    let length0 := item_length (get_item c0 which) in
    (* memcpy of the packet to data[length], then length += TS_PACKET_SIZE *)
    let c1 := memcpy_data c0 (which * cb_item_size c0 + length0) packet TS_PACKET_SIZE in
    let length1 := wrap_int32 (length0 + TS_PACKET_SIZE) in
    let c2 := store_item_length c1 which length1 in
    (* pcr = (uint64_t)((double)pcr * writer->pcr_scale), or 0 *)
    let pcr' := if got_pcr
                then Dbl.to_uint64 (Dbl.of_uint64 pcr * w_pcr_scale writer)%float
                else 0 in
    let writer' :=
      {| w_started := true;
         w_which := which;
         w_num_packets := num_packets0 + 1;
         w_rate := w_rate writer;
         w_use_pcrs := w_use_pcrs writer;
         w_prime_size := w_prime_size writer;
         w_prime_speedup := w_prime_speedup writer;
         w_pcr_scale := w_pcr_scale writer;
         w_packet := <[Z.to_nat num_packets0 := mk_packet_info count pid got_pcr pcr']>
                       (w_packet writer) |} in
    let p' := mk_parent writer' (p_timing p) in
    if length1 =? cb_item_size c2
    then Done (internal_flush_buffered_TS_output p' c2)
    else Done (p', c2, []).

(** ** Child: writing out data from the circular buffer *)

(** [wait_microseconds]: a [nanosleep] of [microseconds] ("must be < 1s"),
    resumed when interrupted. *)
Definition wait_microseconds (microseconds : Z) : list event :=
  [EvWait microseconds].

(** [write_socket_data]: [data] is the memory at the pointer passed in. A
    payload that does not start with the sync byte is not sent, and the call
    still returns 0. The [send] calls are taken to accept all they are given
    (the model has no short or failed [send]). *)
Definition write_socket_data (data : list byte) (data_len : Z) : Z * list event :=
  if negb (Byte.eqb (default x00 (head data)) TS_SYNC_BYTE) then (0, [])
  else if 0 <? data_len then (0, [EvSend (take (Z.to_nat data_len) data)])
  else (0, []).

(** [write_file_data]: one [fwrite] of the whole data (a short write, which
    the model does not have, makes the C function return 1). *)
Definition write_file_data (data : list byte) (data_len : Z) : Z * list event :=
  (0, [EvFwrite (take (Z.to_nat data_len) data)]).

(** [write_circular_data]: send the item at [start] and relinquish it. The
    result of [write_socket_data] is ignored. *)
Definition write_circular_data (circular : circular_buffer)
  : Z * circular_buffer * list event :=
  let off := cb_start circular * cb_item_size circular in
  let buffer := drop (Z.to_nat off) (cb_item_data circular) in
  let length := item_length (get_item circular (cb_start circular)) in
  let '(_, ev) := write_socket_data buffer length in
  let c1 := store_data_byte circular off x00 in
  let c2 := set_start c1 (c_rem (cb_start c1 + 1) (cb_size c1)) in
  (0, c2, ev ++ [EvRelease (cb_start circular)]).

(** [received_EOF] *)
Definition received_EOF (circular : circular_buffer)
  : bool * circular_buffer * list event :=
  let off := cb_start circular * cb_item_size circular in
  let length := item_length (get_item circular (cb_start circular)) in
  if (length =? 1) && Byte.eqb (data_byte circular off) EOF_BYTE then
    (true,
     set_start circular (c_rem (cb_start circular + 1) (cb_size circular)),
     [EvRelease (cb_start circular)])
  else (false, circular, []).

Record timeval := mk_timeval { tv_sec : Z; tv_usec : Z }.

(** The [static] locals of [write_from_circular]. *)
Record child := mk_child {
  ch_starting : bool;
  ch_reset : bool;
  ch_last_packet_time : Z;      (* uint32_t *)
  ch_start : timeval;
  ch_delta_start : Z;           (* int32_t *)
  ch_sent_without_delay : Z;
  ch_count : Z
}.

Definition child_init : child :=
  {| ch_starting := true; ch_reset := true; ch_last_packet_time := 0;
     ch_start := mk_timeval 0 0; ch_delta_start := 0;
     ch_sent_without_delay := 0; ch_count := 0 |}.

(** What one call of [write_from_circular] reads from outside: the clock
    ([gettimeofday]) and, when [global_perturb_range] is not zero, the value
    of [perturb_time_by()]. *)
Record child_env := mk_env {
  env_now : timeval;
  env_perturb : Z
}.

Module Pacing.

(** "We're *actually* at this distance along our time line" *)
Definition our_time_now (global_perturb_range : Z) (start : timeval)
  (env : child_env) : Z :=
  let t := wrap_uint32 ((tv_sec (env_now env) - tv_sec start) * 1000000
                        + (tv_usec (env_now env) - tv_usec start)) in
  if global_perturb_range =? 0 then t else wrap_uint32 (t + env_perturb env).

(** [waitfor = this_packet_time - adjusted_now], an [int32_t]. *)
Definition waitfor_of (this_packet_time our_time delta_start : Z) : Z :=
  let adjusted_now := wrap_uint32 (our_time + delta_start) in
  wrap_int32 (this_packet_time - adjusted_now).

(** "So how long *should* we wait for the correct time to write?":
    [waitfor] and [reset] afterwards. *)
Definition drift_policy (global_perturb_range waitfor : Z) (reset : bool)
  : Z * bool :=
  if 0 <? waitfor then (waitfor, reset)
  else if -200000 <? waitfor then (0, reset)
  else if global_perturb_range =? 0 then (0, true)
  else (waitfor, reset).

(** "We are not allowed to send more than three consecutive packets with no
    delay": [waitfor] and [sent_without_delay] afterwards. *)
Definition burst_guard (circular : circular_buffer)
  (waitfor sent_without_delay : Z) : Z * Z :=
  if (waitfor =? 0) && negb (cb_maxnowait circular =? -1) then
    if sent_without_delay <? cb_maxnowait circular
    then (waitfor, sent_without_delay + 1)
    else (cb_waitfor circular, sent_without_delay)
  else (waitfor, sent_without_delay).

End Pacing.

(** [write_from_circular]: the statics and the buffer afterwards, what was
    done, and [had_eof]. The C function returns 0 on every path the model has
    (its error returns are those of a failed [nanosleep]). *)
Definition write_from_circular (global_perturb_range : Z) (ch : child)
  (circular : circular_buffer) (env : child_env)
  : outcome (child * circular_buffer * list event * bool) :=
  let blocked :=
    if ch_starting ch then negb (circular_buffer_full circular)
    else circular_buffer_empty circular in
  if blocked then Waiting (ch, circular, [], false)
  else
    let count := ch_count ch + 1 in
    let '(eof, c_eof, ev_eof) := received_EOF circular in
    if eof then
      Done (mk_child false (ch_reset ch) (ch_last_packet_time ch) (ch_start ch)
              (ch_delta_start ch) (ch_sent_without_delay ch) count,
            c_eof, ev_eof, true)
    else
      let this_packet_time := item_time (get_item circular (cb_start circular)) in
      let our_time := Pacing.our_time_now global_perturb_range (ch_start ch) env in
      let anew := ch_reset ch
                  || item_discontinuity (get_item circular (cb_start circular)) in
      let start := if anew then env_now env else ch_start ch in
      let delta_start := if anew then wrap_int32 this_packet_time
                         else ch_delta_start ch in
      let waitfor0 := if anew then 0
                      else Pacing.waitfor_of this_packet_time our_time
                             (ch_delta_start ch) in
      let reset0 := if anew then false else ch_reset ch in
      let '(waitfor1, reset1) :=
        Pacing.drift_policy global_perturb_range waitfor0 reset0 in
      let '(waitfor2, sent1) :=
        Pacing.burst_guard circular waitfor1 (ch_sent_without_delay ch) in
      let ev_wait := if 0 <? waitfor2 then wait_microseconds waitfor2 else [] in
      let sent2 := if 0 <? waitfor2 then 0 else sent1 in
      let '(_, c_sent, ev_send) := write_circular_data circular in
      Done (mk_child false reset1 this_packet_time start delta_start sent2 count,
            c_sent, ev_wait ++ ev_send, false).

(** [tswrite_child_process]: call [write_from_circular] until it reports the
    end of file. [envs] are the clock readings of the successive calls. The
    result is the exit status ([None] while the child has not exited: it is
    waiting for the parent, or [envs] ran out), the final state and what the
    child did. *)
Fixpoint tswrite_child_process (global_perturb_range : Z) (envs : list child_env)
  (ch : child) (circular : circular_buffer)
  : option Z * child * circular_buffer * list event :=
  match envs with
  | [] => (None, ch, circular, [])
  | env :: rest =>
      match write_from_circular global_perturb_range ch circular env with
      | Waiting _ => (None, ch, circular, [])
      | Done (ch', c', ev, had_eof) =>
          if had_eof then (Some 0, ch', c', ev)
          else
            let '(st, ch'', c'', ev') :=
              tswrite_child_process global_perturb_range rest ch' c' in
            (st, ch'', c'', ev ++ ev')
      end
  end.

(** ** The command channel *)

(** Modelled from the spec: the [COMMAND_...] values are declared in
    [tswrite_defns.h], which is not among the sources; they are the commands
    the spec lists for [TsWriter.command], under the names [tswrite.c] uses. *)
Inductive TS_command :=
| COMMAND_NOT_A_COMMAND
| COMMAND_QUIT
| COMMAND_NORMAL
| COMMAND_PAUSE
| COMMAND_FAST
| COMMAND_FAST_FAST
| COMMAND_REVERSE
| COMMAND_FAST_REVERSE
| COMMAND_SKIP_FORWARD
| COMMAND_SKIP_BACKWARD
| COMMAND_SKIP_FORWARD_LOTS
| COMMAND_SKIP_BACKWARD_LOTS
| COMMAND_SELECT_FILE_0
| COMMAND_SELECT_FILE_1
| COMMAND_SELECT_FILE_2
| COMMAND_SELECT_FILE_3
| COMMAND_SELECT_FILE_4
| COMMAND_SELECT_FILE_5
| COMMAND_SELECT_FILE_6
| COMMAND_SELECT_FILE_7
| COMMAND_SELECT_FILE_8
| COMMAND_SELECT_FILE_9.

(** What [read(command_socket,&thing,1)] gave: nothing (end of file), an
    error, or one byte. *)
Inductive read_result :=
| ReadEOF
| ReadError
| ReadByte (thing : byte).

(** [read_command]: the value returned, [*command] and [*command_changed]. *)
Definition read_command (input : read_result) (command : TS_command)
  (command_changed : bool) : Z * TS_command * bool :=
  match input with
  | ReadEOF => (0, COMMAND_QUIT, true)
  | ReadError => (0, COMMAND_QUIT, true)
  | ReadByte thing =>
      match thing with
      | "q"%byte => (0, COMMAND_QUIT, true)
      | "n"%byte => (0, COMMAND_NORMAL, true)
      | "p"%byte => (0, COMMAND_PAUSE, true)
      | "f"%byte => (0, COMMAND_FAST, true)
      | "F"%byte => (0, COMMAND_FAST_FAST, true)
      | "r"%byte => (0, COMMAND_REVERSE, true)
      | "R"%byte => (0, COMMAND_FAST_REVERSE, true)
      | ">"%byte => (0, COMMAND_SKIP_FORWARD, true)
      | "<"%byte => (0, COMMAND_SKIP_BACKWARD, true)
      | "]"%byte => (0, COMMAND_SKIP_FORWARD_LOTS, true)
      | "["%byte => (0, COMMAND_SKIP_BACKWARD_LOTS, true)
      | "0"%byte => (0, COMMAND_SELECT_FILE_0, true)
      | "1"%byte => (0, COMMAND_SELECT_FILE_1, true)
      | "2"%byte => (0, COMMAND_SELECT_FILE_2, true)
      | "3"%byte => (0, COMMAND_SELECT_FILE_3, true)
      | "4"%byte => (0, COMMAND_SELECT_FILE_4, true)
      | "5"%byte => (0, COMMAND_SELECT_FILE_5, true)
      | "6"%byte => (0, COMMAND_SELECT_FILE_6, true)
      | "7"%byte => (0, COMMAND_SELECT_FILE_7, true)
      | "8"%byte => (0, COMMAND_SELECT_FILE_8, true)
      | "9"%byte => (0, COMMAND_SELECT_FILE_9, true)
      | x0a => (0, command, command_changed)    (* newline: ignored silently *)
      | _ => (0, command, command_changed)
      end
  end.

(** The command table of the spec (section 4.5): the bytes it recognises and
    the command each stands for. *)
Definition spec_command_table : list (byte * TS_command) :=
  [ ("q"%byte, COMMAND_QUIT); ("n"%byte, COMMAND_NORMAL);
    ("p"%byte, COMMAND_PAUSE); ("f"%byte, COMMAND_FAST);
    ("F"%byte, COMMAND_FAST_FAST); ("r"%byte, COMMAND_REVERSE);
    ("R"%byte, COMMAND_FAST_REVERSE); (">"%byte, COMMAND_SKIP_FORWARD);
    ("<"%byte, COMMAND_SKIP_BACKWARD); ("]"%byte, COMMAND_SKIP_FORWARD_LOTS);
    ("["%byte, COMMAND_SKIP_BACKWARD_LOTS);
    ("0"%byte, COMMAND_SELECT_FILE_0); ("1"%byte, COMMAND_SELECT_FILE_1);
    ("2"%byte, COMMAND_SELECT_FILE_2); ("3"%byte, COMMAND_SELECT_FILE_3);
    ("4"%byte, COMMAND_SELECT_FILE_4); ("5"%byte, COMMAND_SELECT_FILE_5);
    ("6"%byte, COMMAND_SELECT_FILE_6); ("7"%byte, COMMAND_SELECT_FILE_7);
    ("8"%byte, COMMAND_SELECT_FILE_8); ("9"%byte, COMMAND_SELECT_FILE_9) ].

Fixpoint spec_command_of (table : list (byte * TS_command)) (b : byte)
  : option TS_command :=
  match table with
  | [] => None
  | (k, c) :: rest => if Byte.eqb k b then Some c else spec_command_of rest b
  end.

(** ** The TS writer *)

Inductive TS_WRITER_TYPE := TS_W_STDOUT | TS_W_FILE | TS_W_TCP | TS_W_UDP.

(** [struct TS_writer], without the file or socket itself. [tw_writer] is
    [None] for the C [NULL] (direct output). *)
Record TS_writer := mk_TS_writer {
  tw_how : TS_WRITER_TYPE;
  tw_writer : option buffered_TS_output;
  tw_count : Z;
  tw_command_socket : Z;
  tw_command : TS_command;
  tw_command_changed : bool;
  tw_atomic_command : bool;
  tw_drop_packets : Z;
  tw_drop_number : Z
}.

(** One return of [select] in [write_tcp_data]: its value, whether the
    command socket is readable and the output socket writable, and what a
    [read] of the command socket would give. *)
Record select_result := mk_select {
  sel_value : Z;
  sel_read : bool;
  sel_write : bool;
  sel_input : read_result
}.

(** The [while (not_written)] loop of [write_tcp_data] when commands are
    read; [None] while it is still in [select]. *)
Fixpoint write_tcp_loop (sel : list select_result) (command : TS_command)
  (command_changed : bool) (data : list byte) (data_len : Z)
  : option (Z * TS_command * bool * list event) :=
  match sel with
  | [] => None
  | r :: rest =>
      if sel_value r =? -1 then Some (1, command, command_changed, [])
      else if sel_value r =? 0
      then write_tcp_loop rest command command_changed data data_len
      else
        (* the command socket is only looked at if no command is outstanding *)
        let '(err, command', changed') :=
          if negb command_changed && sel_read r
          then read_command (sel_input r) command command_changed
          else (0, command, command_changed) in
        if negb (err =? 0) then Some (1, command', changed', [])
        else if (0 <? data_len) && sel_write r then
          let '(err, ev) := write_socket_data data data_len in
          if negb (err =? 0) then Some (1, command', changed', ev)
          else Some (0, command', changed', ev)
        else if data_len =? 0 then Some (0, command', changed', [])
        else write_tcp_loop rest command' changed' data data_len
  end.

(** [write_tcp_data] *)
Definition write_tcp_data (sel : list select_result) (tswriter : TS_writer)
  (data : list byte) (data_len : Z) : option (Z * TS_command * bool * list event) :=
  if tw_command_socket tswriter =? -1 then
    if data_len =? 0
    then Some (0, tw_command tswriter, tw_command_changed tswriter, [])
    else
      let '(err, ev) := write_socket_data data data_len in
      Some (if negb (err =? 0) then 1 else 0,
            tw_command tswriter, tw_command_changed tswriter, ev)
  else
    write_tcp_loop sel (tw_command tswriter) (tw_command_changed tswriter)
      data data_len.

(** The [static] locals of [tswrite_write]. *)
Record drop_state := mk_drop {
  packet_count : Z;
  drop_count : Z
}.

Definition drop_init : drop_state := mk_drop 0 0.

(** The packet-dropping prelude of [tswrite_write]: [true] when the call
    returns 0 at once, ignoring its packet. *)
Definition drop_step (tswriter : TS_writer) (d : drop_state) : bool * drop_state :=
  if tw_drop_packets tswriter =? 0 then (false, d)
  else if 0 <? drop_count d then
    (* we're busy ignoring packets *)
    (true, mk_drop (packet_count d) (drop_count d - 1))
  else if packet_count d <? tw_drop_packets tswriter then
    (false, mk_drop (packet_count d + 1) (drop_count d))
  else
    (true, mk_drop 0 (tw_drop_number tswriter - 1)).

Definition with_count (tswriter : TS_writer) (n : Z) : TS_writer :=
  mk_TS_writer (tw_how tswriter) (tw_writer tswriter) n
    (tw_command_socket tswriter) (tw_command tswriter)
    (tw_command_changed tswriter) (tw_atomic_command tswriter)
    (tw_drop_packets tswriter) (tw_drop_number tswriter).

Definition with_command (tswriter : TS_writer) (c : TS_command) (changed : bool)
  : TS_writer :=
  mk_TS_writer (tw_how tswriter) (tw_writer tswriter) (tw_count tswriter)
    (tw_command_socket tswriter) c changed (tw_atomic_command tswriter)
    (tw_drop_packets tswriter) (tw_drop_number tswriter).

Definition with_writer (tswriter : TS_writer) (w : buffered_TS_output) : TS_writer :=
  mk_TS_writer (tw_how tswriter) (Some w) (tw_count tswriter)
    (tw_command_socket tswriter) (tw_command tswriter)
    (tw_command_changed tswriter) (tw_atomic_command tswriter)
    (tw_drop_packets tswriter) (tw_drop_number tswriter).

(** Everything [tswrite_write] reads and writes: the writer, its own statics,
    those of the timing functions, and the circular buffer (which only
    matters for buffered output). *)
Record write_state := mk_write_state {
  ws_tswriter : TS_writer;
  ws_drop : drop_state;
  ws_timing : timing;
  ws_circular : circular_buffer
}.

(** [tswrite_write]: the value returned, the state afterwards and what was
    written. [sel] feeds the [select] loop of TCP output with commands. *)
Definition tswrite_write (sel : list select_result) (st : write_state)
  (packet : list byte) (pid : Z) (got_pcr : bool) (pcr : Z)
  : outcome (Z * write_state * list event) :=
  let tswriter := ws_tswriter st in
  let '(ignored, d') := drop_step tswriter (ws_drop st) in
  if ignored
  then Done (0, mk_write_state tswriter d' (ws_timing st) (ws_circular st), [])
  else
    match tw_writer tswriter with
    | None =>
        (* We're writing directly *)
        match tw_how tswriter with
        | TS_W_STDOUT | TS_W_FILE =>
            let '(err, ev) := write_file_data packet TS_PACKET_SIZE in
            if negb (err =? 0)
            then Done (1, mk_write_state tswriter d' (ws_timing st) (ws_circular st), ev)
            else Done (0, mk_write_state (with_count tswriter (tw_count tswriter + 1))
                            d' (ws_timing st) (ws_circular st), ev)
        | TS_W_TCP =>
            match write_tcp_data sel tswriter packet TS_PACKET_SIZE with
            | None => Waiting (0, st, [])
            | Some (err, c, changed, ev) =>
                let tswriter' := with_command tswriter c changed in
                if negb (err =? 0)
                then Done (err, mk_write_state tswriter' d' (ws_timing st)
                                  (ws_circular st), ev)
                else Done (0, mk_write_state
                                (with_count tswriter' (tw_count tswriter + 1))
                                d' (ws_timing st) (ws_circular st), ev)
            end
        | TS_W_UDP =>
            let '(err, ev) := write_socket_data packet TS_PACKET_SIZE in
            if negb (err =? 0)
            then Done (1, mk_write_state tswriter d' (ws_timing st) (ws_circular st), ev)
            else Done (0, mk_write_state (with_count tswriter (tw_count tswriter + 1))
                            d' (ws_timing st) (ws_circular st), ev)
        end
    | Some writer =>
        (* We're writing via buffered output *)
        match write_to_buffered_TS_output (mk_parent writer (ws_timing st))
                (ws_circular st) packet (tw_count tswriter) pid got_pcr pcr with
        | Waiting _ => Waiting (0, st, [])
        | Done (p', c', ev) =>
            Done (0,
                  mk_write_state
                    (with_count (with_writer tswriter (p_writer p'))
                       (tw_count tswriter + 1))
                    d' (p_timing p') c',
                  ev)
        end
    end.


(** ** Runs *)

(** The outcome of [k] successive calls of the packet-dropping prelude:
    [true] for a call that ignores its packet. *)
Fixpoint drop_steps (tswriter : TS_writer) (d : drop_state) (k : nat) : list bool :=
  match k with
  | O => []
  | S k' =>
      let '(ignored, d') := drop_step tswriter d in
      ignored :: drop_steps tswriter d' k'
  end.

(** The statics of [tswrite_write] before call number [i] (from 0) when
    [n] packets are written and [m] ignored in turn. *)
Definition drop_state_in_cycle (n m i : Z) : drop_state :=
  let r := i mod (n + m) in
  if r <=? n then mk_drop r 0 else mk_drop 0 (m - (r - n)).

(** The arguments of one call of [tswrite_write]. *)
Record write_call := mk_call {
  call_packet : list byte;
  call_pid : Z;
  call_got_pcr : bool;
  call_pcr : Z
}.

(** A call for a packet without a PCR. *)
Definition plain_call (packet : list byte) : write_call := mk_call packet 0 false 0.

(** Successive calls of [tswrite_write] (no command input): the value each
    call returned and what it wrote, and the final state. A call that has to
    wait ends the run. *)
Fixpoint tswrite_write_all (st : write_state) (calls : list write_call)
  : list (Z * list event) * write_state :=
  match calls with
  | [] => ([], st)
  | call :: rest =>
      match tswrite_write [] st (call_packet call) (call_pid call)
              (call_got_pcr call) (call_pcr call) with
      | Waiting _ => ([], st)
      | Done (r, st', ev) =>
          let '(results, st'') := tswrite_write_all st' rest in
          ((r, ev) :: results, st'')
      end
  end.

(** A TS packet: the sync byte and 187 bytes of payload. *)
Definition ts_packet (fill : byte) : list byte := TS_SYNC_BYTE :: replicate 187 fill.

(** 188 bytes that are not a TS packet: the first byte is [first]. *)
Definition raw_packet (first : byte) : list byte := first :: replicate 187 x00.

(** [tswrite_build], then [tswrite_open] for [how]: direct output, no
    commands, no dropping. *)
Definition tswrite_open (how : TS_WRITER_TYPE) : TS_writer :=
  {| tw_how := how; tw_writer := None; tw_count := 0; tw_command_socket := -1;
     tw_command := COMMAND_PAUSE; tw_command_changed := false;
     tw_atomic_command := false; tw_drop_packets := 0; tw_drop_number := 0 |}.

(** The caller sets [drop_packets] and [drop_number] in the structure. *)
Definition with_drop (tswriter : TS_writer) (drop_packets drop_number : Z)
  : TS_writer :=
  mk_TS_writer (tw_how tswriter) (tw_writer tswriter) (tw_count tswriter)
    (tw_command_socket tswriter) (tw_command tswriter)
    (tw_command_changed tswriter) (tw_atomic_command tswriter)
    drop_packets drop_number.

(** The state of a direct writer before its first packet. The circular
    buffer plays no part in direct output; an empty one stands in. *)
Definition direct_state (tswriter : TS_writer) : write_state :=
  mk_write_state tswriter drop_init timing_init (map_circular_buffer 0 0 0 0).

(** [tswrite_start_buffering]: allowed for UDP output only ([None] stands
    for the error return). The child it forks starts from [child_init]. *)
Definition tswrite_start_buffering (tswriter : TS_writer)
  (circ_buf_size TS_in_packet maxnowait waitfor byterate : Z) (use_pcrs : bool)
  (prime_size prime_speedup : Z) (pcr_scale : float) : option write_state :=
  match tw_how tswriter with
  | TS_W_UDP =>
      let '(writer, circular) :=
        build_buffered_TS_output circ_buf_size TS_in_packet maxnowait waitfor
          byterate use_pcrs prime_size prime_speedup pcr_scale in
      Some (mk_write_state (with_writer tswriter writer) (ws_drop (direct_state tswriter))
              timing_init circular)
  | _ => None
  end.

(** ** The two processes together *)

(** The parent's writer and statics, the child's statics, the buffer they
    share, everything done so far, and whether the parent has written the
    end-of-file entry (after which it writes no more). *)
Record system := mk_system {
  sys_parent : parent;
  sys_child : child;
  sys_circular : circular_buffer;
  sys_trace : list event;
  sys_closed : bool
}.

(** After [tswrite_start_buffering]. *)
Definition system_init (circ_buf_size TS_in_packet maxnowait waitfor byterate : Z)
  (use_pcrs : bool) (prime_size prime_speedup : Z) (pcr_scale : float) : system :=
  let '(writer, circular) :=
    build_buffered_TS_output circ_buf_size TS_in_packet maxnowait waitfor
      byterate use_pcrs prime_size prime_speedup pcr_scale in
  mk_system (mk_parent writer timing_init) child_init circular [] false.

(** One call completed by either process. A call is taken as one step: the
    parent only ever writes [end] and the items up to it, the child only
    [start], and what lets a call past its wait is not undone by the other
    process. *)
Inductive step (global_perturb_range : Z) : system -> system -> Prop :=
| step_write : forall s packet count pid got_pcr pcr p' c' ev,
    sys_closed s = false ->
    write_to_buffered_TS_output (sys_parent s) (sys_circular s)
      packet count pid got_pcr pcr = Done (p', c', ev) ->
    step global_perturb_range s
      (mk_system p' (sys_child s) c' (sys_trace s ++ ev) false)
| step_eof : forall s p' c' ev,
    sys_closed s = false ->
    write_EOF_to_buffered_TS_output (sys_parent s) (sys_circular s)
      = Done (p', c', ev) ->
    step global_perturb_range s
      (mk_system p' (sys_child s) c' (sys_trace s ++ ev) true)
| step_eof_waiting : forall s p' c' ev,
    sys_closed s = false ->
    write_EOF_to_buffered_TS_output (sys_parent s) (sys_circular s)
      = Waiting (p', c', ev) ->
    step global_perturb_range s
      (mk_system p' (sys_child s) c' (sys_trace s ++ ev) false)
| step_child : forall s env ch' c' ev had_eof,
    write_from_circular global_perturb_range (sys_child s) (sys_circular s) env
      = Done (ch', c', ev, had_eof) ->
    step global_perturb_range s
      (mk_system (sys_parent s) ch' c' (sys_trace s ++ ev) (sys_closed s)).

Inductive reachable (global_perturb_range : Z) (s0 : system) : system -> Prop :=
| reachable_init : reachable global_perturb_range s0 s0
| reachable_step : forall s s',
    reachable global_perturb_range s0 s ->
    step global_perturb_range s s' ->
    reachable global_perturb_range s0 s'.

(** The items the buffer holds: committed by the parent and not yet released
    by the child. *)
Fixpoint outstanding (trace : list event) : Z :=
  match trace with
  | [] => 0
  | EvCommit _ :: rest => 1 + outstanding rest
  | EvRelease _ :: rest => -1 + outstanding rest
  | _ :: rest => outstanding rest
  end.

(** The same read off the indices. *)
Definition held (circular : circular_buffer) : Z :=
  (cb_end circular + 1 - cb_start circular) mod cb_size circular.

(** ** Pacing, read off what the child did *)





(** Whether a call of [write_from_circular] has to wait, and whether the
    item at [start] is the end-of-file entry. *)
Definition child_blocked (ch : child) (circular : circular_buffer) : bool :=
  if ch_starting ch then negb (circular_buffer_full circular)
  else circular_buffer_empty circular.

Definition eof_at_start (circular : circular_buffer) : bool :=
  (item_length (get_item circular (cb_start circular)) =? 1)
  && Byte.eqb (data_byte circular (cb_start circular * cb_item_size circular)) EOF_BYTE.

(** What [write_circular_data] does for the item at [start]. *)
Definition sending (circular : circular_buffer) : list event :=
  snd (write_circular_data circular).

Definition after_sending (circular : circular_buffer) : circular_buffer :=
  snd (fst (write_circular_data circular)).


(** ** Worked configurations *)

(** Buffered UDP output, started with the given buffer size, packets per
    item, burst cap, rate and timing mode (prime size 10, no speed-up, PCRs
    unscaled), after the given calls of [tswrite_write]. *)
Definition buffered_after (circ_buf_size TS_in_packet maxnowait waitfor byterate : Z)
  (use_pcrs : bool) (calls : list write_call) : write_state :=
  match tswrite_start_buffering (tswrite_open TS_W_UDP) circ_buf_size TS_in_packet
          maxnowait waitfor byterate use_pcrs 10 100 1%float with
  | Some st => snd (tswrite_write_all st calls)
  | None => direct_state (tswrite_open TS_W_UDP)
  end.

(** A clock reading, whole seconds. *)
Definition at_second (sec : Z) : child_env := mk_env (mk_timeval sec 0) 0.








(** One completed call of the parent or of the child, as a function on the
    system (a call that has to wait changes nothing). *)
Definition parent_writes (s : system) (call : write_call) (count : Z) : system :=
  match write_to_buffered_TS_output (sys_parent s) (sys_circular s)
          (call_packet call) count (call_pid call) (call_got_pcr call)
          (call_pcr call) with
  | Done (p', c', ev) => mk_system p' (sys_child s) c' (sys_trace s ++ ev) false
  | Waiting _ => s
  end.

Definition child_calls (global_perturb_range : Z) (s : system) (env : child_env)
  : system :=
  match write_from_circular global_perturb_range (sys_child s) (sys_circular s) env with
  | Done (ch', c', ev, _) =>
      mk_system (sys_parent s) ch' c' (sys_trace s ++ ev) (sys_closed s)
  | Waiting _ => s
  end.

(** What holds of the indices in every state the two processes can reach
    when the buffer has at least two slots. *)
Definition ring_invariant (size : Z) (s : system) : Prop :=
  let c := sys_circular s in
  cb_size c = size
  /\ 0 <= cb_start c < size
  /\ 0 <= cb_end c < size
  /\ outstanding (sys_trace s) = held c
  /\ (sys_closed s = false ->
      w_which (p_writer (sys_parent s)) = c_rem (cb_end c + 1) size
      /\ (w_started (p_writer (sys_parent s)) = true ->
          circular_buffer_full c = false)).

(** And when it has one slot only. *)
Definition one_slot_invariant (s : system) : Prop :=
  let c := sys_circular s in
  cb_size c = 1 /\ cb_start c = 1 /\ cb_end c = 0
  /\ ch_starting (sys_child s) = true
  /\ (sys_closed s = false -> w_which (p_writer (sys_parent s)) = 0).

(** A buffer of one slot ([-buffer 1]), one packet per item, after the
    parent has written two packets. *)
Definition one_slot_start : system := system_init 1 1 30 1000 250000 true 10 100 1%float.

Definition one_slot_two_writes : system :=
  parent_writes (parent_writes one_slot_start (plain_call (ts_packet x00)) 0)
    (plain_call (ts_packet x01)) 1.

(** A buffer of four slots ([-buffer 4]), one packet per item, after the
    parent has written one packet. *)
Definition four_slot_start : system :=
  system_init 4 1 30 1000 250000 false 10 100 1%float.

Definition four_slot_one_write : system :=
  parent_writes four_slot_start (plain_call (ts_packet x00)) 0.

(** ** The end-of-file entry *)

(** The item in [slot] is the end-of-file entry. *)
Definition eof_at (circular : circular_buffer) (slot : Z) : bool :=
  (item_length (get_item circular slot) =? 1)
  && Byte.eqb (data_byte circular (slot * cb_item_size circular)) EOF_BYTE.

(** The buffer is laid out as [map_circular_buffer] made it. *)
Definition ring_wf (c : circular_buffer) : Prop :=
  1 <= cb_size c /\ 0 < cb_item_size c /\ 0 <= cb_end c
  /\ length (cb_item c) = Z.to_nat (cb_size c)
  /\ length (cb_item_data c) = Z.to_nat (cb_size c * cb_item_size c).

(** Whether [write_EOF_to_buffered_TS_output] has an open item to flush, and
    the parent and the buffer when it comes to add the end-of-file entry. *)
Definition open_item (p : parent) (c : circular_buffer) : bool :=
  w_started (p_writer p) && (0 <? item_length (get_item c (w_which (p_writer p)))).

Definition before_eof_entry (p : parent) (c : circular_buffer)
  : parent * circular_buffer :=
  if open_item p c then fst (internal_flush_buffered_TS_output p c) else (p, c).

(** A buffer of three slots, two packets per item, after one packet: the
    item in slot 1 is open and half full. *)
Definition half_item : write_state :=
  buffered_after 3 2 30 1000 250000 false [plain_call (ts_packet x00)].

Definition half_item_parent : parent :=
  match tw_writer (ws_tswriter half_item) with
  | Some w => mk_parent w (ws_timing half_item)
  | None => mk_parent (fst (build_buffered_TS_output 3 2 30 1000 250000 false 10 100 1%float))
              timing_init
  end.

(** What [write_EOF_to_buffered_TS_output] makes of it. *)
Definition half_item_closed : parent * circular_buffer * list event :=
  match write_EOF_to_buffered_TS_output half_item_parent (ws_circular half_item) with
  | Done r => r
  | Waiting r => r
  end.

(** The end-of-file entry is [k] items on from [slot]: the items before it
    are not end-of-file entries. *)
Fixpoint eof_after (k : nat) (c : circular_buffer) (slot : Z) : Prop :=
  match k with
  | O => eof_at c slot = true
  | S k' => eof_at c slot = false /\ eof_after k' c (c_rem (slot + 1) (cb_size c))
  end.

(** The parent's closing call on the system (a call that has to wait changes
    nothing). *)
Definition parent_closes (s : system) : system :=
  match write_EOF_to_buffered_TS_output (sys_parent s) (sys_circular s) with
  | Done (p', c', ev) => mk_system p' (sys_child s) c' (sys_trace s ++ ev) true
  | Waiting _ => s
  end.

(** Four slots filled (three items, one packet each), then one item sent
    by the child, then the end of the stream. *)
Definition four_slot_filled : system :=
  parent_writes
    (parent_writes four_slot_one_write (plain_call (ts_packet x01)) 1)
    (plain_call (ts_packet x02)) 2.

Definition four_slot_one_sent_and_closed : system :=
  parent_closes (child_calls 0 four_slot_filled (at_second 100)).

(** Four slots, one packet, and the end of the stream. *)
Definition four_slot_closed_early : system := parent_closes four_slot_one_write.

(** ** Worked timing *)

(** What the parent's timing expects of the configuration: a rate and a
    speed-up that are not negative, and byte counts that fit an [int]. *)
Definition timing_config_ok (writer : buffered_TS_output) (circular : circular_buffer)
  : Prop :=
  0 <= w_rate writer
  /\ 0 <= w_prime_speedup writer
  /\ 0 <= TS_PACKET_SIZE * w_num_packets writer < 2 ^ 31
  /\ 0 <= TS_PACKET_SIZE * cb_TS_in_item circular * w_prime_size writer < 2 ^ 31.

(** A writer about to flush an item of one packet, which carries the given
    PCR: 250000 bytes a second to start with, prime size 10. *)
Definition pcr_writer (index pcr : Z) : buffered_TS_output :=
  {| w_started := true; w_which := 1; w_num_packets := 1; w_rate := 250000;
     w_use_pcrs := true; w_prime_size := 10; w_prime_speedup := 100;
     w_pcr_scale := 1%float;
     w_packet := [mk_packet_info index 0 true pcr] |}.

Definition pcr_ring : circular_buffer := map_circular_buffer 4 1 30 1000.

(** The statics after a first item whose packet, number 0, carries PCR 0. *)
Definition after_first_pcr : pcr_timing :=
  fst (set_buffer_item_time_pcr (pcr_writer 0 0) pcr_ring pcr_timing_init).

(** The next item's packet, number 1, carries PCR 2538: 188 bytes in 2538
    ticks of 27 MHz, which is 2000000 bytes a second. *)
Definition after_second_pcr : pcr_timing :=
  fst (set_buffer_item_time_pcr (pcr_writer 1 2538) pcr_ring after_first_pcr).

(** And the one after carries PCR 1000, less than the last. *)
Definition after_pcr_rollback : pcr_timing :=
  fst (set_buffer_item_time_pcr (pcr_writer 2 1000) pcr_ring after_second_pcr).

(** C1 as the claim states it: the rate from the second PCR on is
    [delta_bytes * 27e6 / delta_pcr * 1e6]. *)
Definition pcr_rate_as_claimed : Prop :=
  forall writer circular s ii p,
    find_pcr writer = Some (ii, p) ->
    had_first_pcr s = true ->
    last_pcr s <= pi_pcr p ->
    pcr_rate (fst (set_buffer_item_time_pcr writer circular s))
    = (Dbl.of_int ((pi_index p - last_pcr_index s) * TS_PACKET_SIZE) * 27000000
       / Dbl.of_uint64 (pi_pcr p - last_pcr s) * 1000000)%float.

(** ** Runs of items *)

(** The time the last call of [set_buffer_item_time] gave its item, as the
    statics of the timing function in use remember it. *)
Definition assigned_time (use_pcrs : bool) (t : timing) : Z :=
  if use_pcrs then last_timestamp (tm_pcr t) else tm_last_time t.

(** The times given to successive items; each writer of the list is the
    buffered output as it stands when its item is flushed. *)
Fixpoint item_times (writers : list buffered_TS_output) (circular : circular_buffer)
  (t : timing) : list Z :=
  match writers with
  | [] => []
  | writer :: rest =>
      let '(t', c') := set_buffer_item_time writer circular t in
      assigned_time (w_use_pcrs writer) t' :: item_times rest c' t'
  end.

(** Each time is at least the one before it. *)
Fixpoint non_decreasing_from (previous : Z) (times : list Z) : bool :=
  match times with
  | [] => true
  | x :: rest => (previous <=? x) && non_decreasing_from x rest
  end.

(** The time of the item stays within a [uint32_t]: in plain mode the sum
    does, with PCRs the conversion of the sum is defined. *)
Definition time_fits (writer : buffered_TS_output) (circular : circular_buffer)
  (t : timing) : Prop :=
  if w_use_pcrs writer then
    Dbl.converts_to_uint32
      (Dbl.of_uint32 (last_timestamp (tm_pcr t))
       + PcrTiming.num_microseconds writer circular (tm_pcr t))%float
  else tm_last_time t + plain_elapsed_time writer < 2 ^ 32.

(** A run of items in one timing mode, well configured, whose times all stay
    within a [uint32_t]. *)
Fixpoint run_fits (use_pcrs : bool) (writers : list buffered_TS_output)
  (circular : circular_buffer) (t : timing) : Prop :=
  match writers with
  | [] => True
  | writer :: rest =>
      w_use_pcrs writer = use_pcrs
      /\ timing_config_ok writer circular
      /\ time_fits writer circular t
      /\ run_fits use_pcrs rest (snd (set_buffer_item_time writer circular t))
           (fst (set_buffer_item_time writer circular t))
  end.

(** A writer about to flush an item of seven packets without PCR, timed by
    the byte rate alone. *)
Definition plain_writer (byterate : Z) : buffered_TS_output :=
  {| w_started := true; w_which := 1; w_num_packets := 7; w_rate := byterate;
     w_use_pcrs := false; w_prime_size := 10; w_prime_speedup := 100;
     w_pcr_scale := 1%float;
     w_packet := replicate 7 no_packet_info |}.

(** C6 as the claim states it: in a run of items without PCR rollback (here:
    in one timing mode, well configured), however long, no item is given a
    time below that of the item before it. *)
Definition times_never_decrease : Prop :=
  forall use_pcrs writers circular t,
    Forall (fun writer => w_use_pcrs writer = use_pcrs
                          /\ timing_config_ok writer circular
                          /\ 0 < w_rate writer
                          /\ find_pcr writer = None) writers ->
    0 <= assigned_time use_pcrs t < 2 ^ 32 ->
    non_decreasing_from (assigned_time use_pcrs t) (item_times writers circular t)
      = true.

(** [f] is a number of at least [a], an infinity above, or a NaN. *)
Definition sf_at_least (a : Z) (f : spec_float) : Prop :=
  match f with
  | S754_finite false m e => a <= Z.shiftl (Zpos m) e
  | S754_infinity false | S754_nan => True
  | _ => False
  end.
(** * Properties *)

(** ** The command reader *)

(** C9. [read_command] follows the command table: a byte of the table sets
    [*command] to its command and [*command_changed] to TRUE; any other byte,
    the newline among them, leaves both as they were; end of file and a read
    error set [COMMAND_QUIT] and TRUE; and every case returns 0. *)
Theorem read_command_follows_table :
  forall (input : read_result) (command : TS_command) (command_changed : bool),
    read_command input command command_changed =
      match input with
      | ReadByte thing =>
          match spec_command_of spec_command_table thing with
          | Some c => (0, c, true)
          | None => (0, command, command_changed)
          end
      | ReadEOF | ReadError => (0, COMMAND_QUIT, true)
      end
    /\ spec_command_of spec_command_table x0a = None.
Proof.
  intros input command command_changed. split; [| reflexivity].
  destruct input as [| | thing]; [reflexivity | reflexivity |].
  destruct thing; reflexivity.
Qed.

(** The table holds exactly the 21 bytes [q n p f F r R > < ] [ 0..9], each
    once. *)
Lemma spec_command_table_keys :
  map fst spec_command_table =
    [ x71; x6e; x70; x66; x46; x72; x52; x3e; x3c; x5d; x5b;
      x30; x31; x32; x33; x34; x35; x36; x37; x38; x39 ].
Proof. reflexivity. Qed.

(** A command is not read while the previous one is outstanding: with
    [command_changed] set, a round of the [select] loop that can write leaves
    the command alone whatever the command socket holds. *)
Lemma write_tcp_loop_skips_read_when_changed :
  forall r rest command data data_len,
    0 < sel_value r -> sel_write r = true -> 0 < data_len ->
    write_tcp_loop (r :: rest) command true data data_len =
      Some (0, command, true, snd (write_socket_data data data_len)).
Proof.
  intros r rest command data data_len Hv Hw Hl. simpl.
  destruct (sel_value r =? -1) eqn:E1; [apply Z.eqb_eq in E1; lia |].
  destruct (sel_value r =? 0) eqn:E2; [apply Z.eqb_eq in E2; lia |].
  rewrite Hw. replace (0 <? data_len) with true by (symmetry; apply Z.ltb_lt; lia).
  simpl. unfold write_socket_data.
  destruct (negb _); [reflexivity |].
  destruct (0 <? data_len); reflexivity.
Qed.

(** ** Dropping packets ([tswrite_write]) *)

Section DropCycle.

Variable tswriter : TS_writer.
Let n := tw_drop_packets tswriter.
Let m := tw_drop_number tswriter.
Hypothesis n_pos : 0 < n.
Hypothesis m_pos : 1 <= m.

Let drop_state_at := drop_state_in_cycle n m.

Lemma drop_step_at :
  forall i, 0 <= i ->
    drop_step tswriter (drop_state_at i) =
      (n <=? i mod (n + m), drop_state_at (i + 1)).
Proof using n_pos m_pos.
  intros i Hi. unfold drop_step, drop_state_at, drop_state_in_cycle. fold n m.
  assert (Hnm : 0 < n + m) by lia.
  pose proof (Z.mod_pos_bound i (n + m) Hnm) as Hr.
  assert (Hnext : (i + 1) mod (n + m) =
                  if i mod (n + m) + 1 =? n + m then 0 else i mod (n + m) + 1).
  { destruct (i mod (n + m) + 1 =? n + m) eqn:E.
    - apply Z.eqb_eq in E.
      rewrite Z.add_mod by lia. rewrite (Z.mod_small 1) by lia.
      rewrite E. apply Z.mod_same. lia.
    - apply Z.eqb_neq in E.
      rewrite Z.add_mod by lia. rewrite (Z.mod_small 1) by lia.
      apply Z.mod_small. lia. }
  rewrite Hnext. set (r := i mod (n + m)) in *.
  replace (n =? 0) with false by (symmetry; apply Z.eqb_neq; lia).
  destruct (r <=? n) eqn:E1; simpl.
  - apply Z.leb_le in E1.
    destruct (r <? n) eqn:E2.
    + apply Z.ltb_lt in E2.
      replace (n <=? r) with false by (symmetry; apply Z.leb_gt; lia).
      replace (r + 1 =? n + m) with false by (symmetry; apply Z.eqb_neq; lia).
      replace (r + 1 <=? n) with true by (symmetry; apply Z.leb_le; lia).
      reflexivity.
    + apply Z.ltb_ge in E2. assert (r = n) by lia. subst r.
      replace (n <=? i mod (n + m)) with true by (symmetry; apply Z.leb_le; lia).
      destruct (i mod (n + m) + 1 =? n + m) eqn:E3.
      * apply Z.eqb_eq in E3. simpl.
        replace (0 <=? n) with true by (symmetry; apply Z.leb_le; lia).
        f_equal. f_equal. lia.
      * apply Z.eqb_neq in E3.
        replace (i mod (n + m) + 1 <=? n) with false
          by (symmetry; apply Z.leb_gt; lia).
        f_equal. f_equal. lia.
  - apply Z.leb_gt in E1.
    replace (0 <? m - (r - n)) with true by (symmetry; apply Z.ltb_lt; lia).
    replace (n <=? r) with true by (symmetry; apply Z.leb_le; lia).
    destruct (r + 1 =? n + m) eqn:E3.
    + apply Z.eqb_eq in E3.
      replace (0 <=? n) with true by (symmetry; apply Z.leb_le; lia).
      f_equal. f_equal. lia.
    + apply Z.eqb_neq in E3.
      replace (r + 1 <=? n) with false by (symmetry; apply Z.leb_gt; lia).
      f_equal. f_equal. lia.
Qed.

Lemma drop_steps_from :
  forall k i, 0 <= i ->
    drop_steps tswriter (drop_state_at i) k =
      map (fun j => n <=? (i + Z.of_nat j) mod (n + m)) (seq 0 k).
Proof using n_pos m_pos.
  induction k as [| k IH]; intros i Hi; [reflexivity |].
  cbn [drop_steps]. rewrite drop_step_at by assumption.
  rewrite IH by lia. cbn [seq map]. rewrite Z.add_0_r. f_equal.
  rewrite <- seq_shift, map_map. apply map_ext. intros j. do 2 f_equal. lia.
Qed.

(** With [drop_packets = n > 0] and [drop_number = m >= 1] the calls follow
    the cycle of [n] packets written and [m] ignored: call number [j] (from
    0) ignores its packet exactly when [n <= j mod (n + m)]. *)
Lemma drop_cycle :
  forall k,
    drop_steps tswriter drop_init k =
      map (fun j => n <=? Z.of_nat j mod (n + m)) (seq 0 k).
Proof using n_pos m_pos.
  intros k.
  assert (H0 : drop_init = drop_state_at 0).
  { unfold drop_state_at, drop_state_in_cycle. rewrite Z.mod_0_l by lia.
    replace (0 <=? n) with true by (symmetry; apply Z.leb_le; lia). reflexivity. }
  rewrite H0, drop_steps_from by lia. reflexivity.
Qed.

End DropCycle.

(** Witness: two packets written and three ignored, in turn. *)
Lemma drop_cycle_witness :
  drop_steps (with_drop (tswrite_open TS_W_UDP) 2 3) drop_init 7
  = [false; false; true; true; true; false; false].
Proof.
  exact (drop_cycle (with_drop (tswrite_open TS_W_UDP) 2 3) eq_refl
           ltac:(vm_compute; discriminate) 7%nat).
Defined.



(** C10 (the code at [drop_number = 0]). With [drop_packets = 1] and
    [drop_number = 0] three packets written to a UDP socket give: the first
    sent, the second ignored (returning 0, the count unchanged), the third
    sent. One packet is ignored in every cycle although [drop_number] asks
    for none. *)
Theorem drop_number_zero_still_drops_one :
  let tswriter := with_drop (tswrite_open TS_W_UDP) 1 0 in
  let p := ts_packet x00 in
  let '(results, st) := tswrite_write_all (direct_state tswriter) (map plain_call [p; p; p]) in
  results = [(0, [EvSend p]); (0, []); (0, [EvSend p])]
  /\ tw_count (ws_tswriter st) = 2
  /\ drop_steps tswriter drop_init 6 = [false; true; false; true; false; true].
Proof. vm_compute. repeat split; reflexivity. Qed.

(** ** The sync byte on the way out *)


(** C8 (the code on the file path). A direct writer on a file or on standard
    output hands [fwrite] the 188 bytes it is given whatever their first
    byte: here the first byte is 0x00 and the data is written, the call
    returns 0 and the packet counts as output. The socket path refuses the
    same data. *)
Theorem file_output_writes_data_without_sync_byte :
  let bad := raw_packet x00 in
  tswrite_write [] (direct_state (tswrite_open TS_W_FILE)) bad 0 false 0 =
    Done (0, direct_state (with_count (tswrite_open TS_W_FILE) 1), [EvFwrite bad])
  /\ tswrite_write [] (direct_state (tswrite_open TS_W_STDOUT)) bad 0 false 0 =
    Done (0, direct_state (with_count (tswrite_open TS_W_STDOUT) 1), [EvFwrite bad])
  /\ tswrite_write [] (direct_state (tswrite_open TS_W_UDP)) bad 0 false 0 =
    Done (0, direct_state (with_count (tswrite_open TS_W_UDP) 1), []).
Proof. vm_compute. repeat split; reflexivity. Qed.

(** ** The child's pacing *)

Lemma received_EOF_eof_at_start :
  forall c, fst (fst (received_EOF c)) = eof_at_start c.
Proof.
  intros c. unfold received_EOF, eof_at_start.
  destruct (_ && _); reflexivity.
Qed.

(** A call of [write_from_circular] that gets past its wait and finds a data
    item, spelled out. *)
Lemma write_from_circular_data :
  forall g ch c env,
    child_blocked ch c = false ->
    eof_at_start c = false ->
    let this_packet_time := item_time (get_item c (cb_start c)) in
    let anew := ch_reset ch || item_discontinuity (get_item c (cb_start c)) in
    let waitfor0 :=
      if anew then 0
      else Pacing.waitfor_of this_packet_time
             (Pacing.our_time_now g (ch_start ch) env) (ch_delta_start ch) in
    let policy := Pacing.drift_policy g waitfor0 (if anew then false else ch_reset ch) in
    let guard := Pacing.burst_guard c (fst policy) (ch_sent_without_delay ch) in
    write_from_circular g ch c env =
      Done (mk_child false (snd policy) this_packet_time
              (if anew then env_now env else ch_start ch)
              (if anew then wrap_int32 this_packet_time else ch_delta_start ch)
              (if 0 <? fst guard then 0 else snd guard)
              (ch_count ch + 1),
            after_sending c,
            (if 0 <? fst guard then [EvWait (fst guard)] else []) ++ sending c,
            false).
Proof.
  intros g ch c env Hb He. cbv zeta.
  unfold write_from_circular. fold (child_blocked ch c). rewrite Hb.
  pose proof (received_EOF_eof_at_start c) as HE. rewrite He in HE.
  destruct (received_EOF c) as [[eof c_eof] ev_eof]. simpl in HE. subst eof.
  destruct (Pacing.drift_policy _ _ _) as [waitfor1 reset1]. simpl.
  destruct (Pacing.burst_guard _ _ _) as [waitfor2 sent1]. simpl.
  unfold after_sending, sending, wait_microseconds.
  destruct (write_circular_data c) as [[r c_sent] ev_send]. reflexivity.
Qed.

(** A call that finds the end-of-file entry. *)
Lemma write_from_circular_eof :
  forall g ch c env,
    child_blocked ch c = false ->
    eof_at_start c = true ->
    write_from_circular g ch c env =
      Done (mk_child false (ch_reset ch) (ch_last_packet_time ch) (ch_start ch)
              (ch_delta_start ch) (ch_sent_without_delay ch) (ch_count ch + 1),
            set_start c (c_rem (cb_start c + 1) (cb_size c)),
            [EvRelease (cb_start c)],
            true).
Proof.
  intros g ch c env Hb He.
  unfold write_from_circular. fold (child_blocked ch c). rewrite Hb.
  unfold received_EOF. fold (eof_at_start c). rewrite He. reflexivity.
Qed.

(** A call that has to wait changes nothing. *)
Lemma write_from_circular_blocked :
  forall g ch c env,
    child_blocked ch c = true ->
    write_from_circular g ch c env = Waiting (ch, c, [], false).
Proof.
  intros g ch c env Hb.
  unfold write_from_circular. fold (child_blocked ch c). rewrite Hb. reflexivity.
Qed.




(** *** The burst cap *)

Lemma write_socket_data_events :
  forall data data_len,
    snd (write_socket_data data data_len) = []
    \/ exists sent, snd (write_socket_data data data_len) = [EvSend sent].
Proof.
  intros data data_len. unfold write_socket_data.
  destruct (negb _); [left; reflexivity |].
  destruct (0 <? data_len); [right; eexists; reflexivity | left; reflexivity].
Qed.

(** [write_circular_data] sends at most once and then releases the slot. *)
Lemma sending_shape :
  forall c,
    sending c = [EvRelease (cb_start c)]
    \/ exists sent, sending c = [EvSend sent; EvRelease (cb_start c)].
Proof.
  intros c. unfold sending, write_circular_data.
  destruct (write_socket_data_events
              (drop (Z.to_nat (cb_start c * cb_item_size c)) (cb_item_data c))
              (item_length (get_item c (cb_start c)))) as [H | [sent H]];
    destruct (write_socket_data _ _) as [r ev]; simpl in H; subst ev; simpl.
  - left; reflexivity.
  - right; eexists; reflexivity.
Qed.














(** ** The circular buffer *)

(** *** Arithmetic of the indices *)

Lemma mod_cases :
  forall n x, 0 < n -> - n <= x < 2 * n ->
    x mod n = if x <? 0 then x + n else if x <? n then x else x - n.
Proof.
  intros n x Hn Hx.
  destruct (x <? 0) eqn:E1; [apply Z.ltb_lt in E1 | apply Z.ltb_ge in E1].
  - symmetry. apply (Z.mod_unique_pos x n (-1)); lia.
  - destruct (x <? n) eqn:E2; [apply Z.ltb_lt in E2 | apply Z.ltb_ge in E2].
    + apply Z.mod_small. lia.
    + symmetry. apply (Z.mod_unique_pos x n 1); lia.
Qed.

Ltac mod_arith :=
  unfold c_rem in *;
  repeat match goal with
    | H : context [Z.rem ?a ?b] |- _ => rewrite (Z.rem_mod_nonneg a b) in H by lia
    | |- context [Z.rem ?a ?b] => rewrite (Z.rem_mod_nonneg a b) by lia
    end;
  repeat (match goal with
          | H : context [?x mod ?n] |- _ => rewrite (mod_cases n x) in H by lia
          | |- context [?x mod ?n] => rewrite (mod_cases n x) by lia
          end;
          repeat match goal with
            | H : context [?a <? ?b] |- _ => destruct (Z.ltb_spec a b)
            | |- context [?a <? ?b] => destruct (Z.ltb_spec a b)
            end);
  try lia.

Lemma held_after_commit :
  forall n s e, 2 <= n -> 0 <= s < n -> 0 <= e < n ->
    c_rem (e + 2) n <> s ->
    (c_rem (e + 1) n + 1 - s) mod n = 1 + (e + 1 - s) mod n.
Proof. intros n s e Hn Hs He Hfull. mod_arith. Qed.

Lemma held_after_release :
  forall n s e, 2 <= n -> 0 <= s < n -> 0 <= e < n ->
    s <> c_rem (e + 1) n ->
    (e + 1 - c_rem (s + 1) n) mod n = -1 + (e + 1 - s) mod n.
Proof. intros n s e Hn Hs He Hempty. mod_arith. Qed.

Lemma full_is_not_empty :
  forall n s e, 2 <= n -> 0 <= s < n -> 0 <= e < n ->
    c_rem (e + 2) n = s -> s <> c_rem (e + 1) n.
Proof. intros n s e Hn Hs He Hfull. mod_arith. Qed.

Lemma full_after_advance :
  forall n s e, 2 <= n -> 0 <= s < n -> 0 <= e < n ->
    s <> c_rem (e + 1) n -> c_rem (e + 2) n <> s ->
    c_rem (e + 2) n <> c_rem (s + 1) n.
Proof. intros n s e Hn Hs He Hempty Hfull. mod_arith. Qed.

Lemma c_rem_range :
  forall n x, 1 <= n -> 0 <= x -> 0 <= c_rem x n < n.
Proof.
  intros n x Hn Hx. unfold c_rem. rewrite Z.rem_mod_nonneg by lia.
  apply Z.mod_pos_bound. lia.
Qed.

Lemma held_range :
  forall c, 1 <= cb_size c -> 0 <= held c < cb_size c.
Proof. intros c Hn. unfold held. apply Z.mod_pos_bound. lia. Qed.

(** *** What the calls do to the indices *)

(** Setting the time of an item touches the items only. *)
Lemma set_buffer_item_time_frame :
  forall w c t,
    let c' := snd (set_buffer_item_time w c t) in
    cb_start c' = cb_start c /\ cb_end c' = cb_end c /\ cb_size c' = cb_size c
    /\ cb_item_size c' = cb_item_size c /\ cb_item_data c' = cb_item_data c
    /\ cb_item c' =
         <[Z.to_nat (w_which w) :=
             mk_item (item_time (get_item c' (w_which w)))
               (item_discontinuity (get_item c (w_which w)))
               (item_length (get_item c (w_which w)))]> (cb_item c).
Proof.
  intros w c t. unfold set_buffer_item_time.
  destruct (w_use_pcrs w); cbn -[PcrTiming.timestamp plain_elapsed_time];
    repeat split; unfold get_item; cbn -[PcrTiming.timestamp plain_elapsed_time];
    set (i := Z.to_nat (w_which w));
    destruct (decide (i < length (cb_item c))%nat) as [Hi | Hi].
  - rewrite list_lookup_insert_eq by assumption. reflexivity.
  - rewrite !list_insert_ge by lia. reflexivity.
  - rewrite list_lookup_insert_eq by assumption. reflexivity.
  - rewrite !list_insert_ge by lia. reflexivity.
Qed.

Lemma flush_effect :
  forall p c p' c' ev,
    internal_flush_buffered_TS_output p c = (p', c', ev) ->
    cb_start c' = cb_start c
    /\ cb_end c' = w_which (p_writer p)
    /\ cb_size c' = cb_size c
    /\ ev = [EvCommit (w_which (p_writer p))]
    /\ w_started (p_writer p') = false
    /\ w_which (p_writer p') = c_rem (w_which (p_writer p) + 1) (cb_size c).
Proof.
  intros p c p' c' ev H. unfold internal_flush_buffered_TS_output in H.
  pose proof (set_buffer_item_time_frame (p_writer p) c (p_timing p)) as F.
  cbv zeta in F. destruct (set_buffer_item_time _ _ _) as [t' c1].
  simpl in F. destruct F as (F1 & F2 & F3 & _).
  inversion H; subst; clear H. simpl. rewrite F3. repeat split; assumption.
Qed.

Lemma add_eof_entry_effect :
  forall p c,
    match add_eof_entry p c with
    | Waiting (p', c', ev) =>
        circular_buffer_full c = true /\ p' = p /\ c' = c /\ ev = []
    | Done (p', c', ev) =>
        circular_buffer_full c = false
        /\ cb_start c' = cb_start c
        /\ cb_end c' = c_rem (cb_end c + 1) (cb_size c)
        /\ cb_size c' = cb_size c
        /\ ev = [EvCommit (c_rem (cb_end c + 1) (cb_size c))]
    end.
Proof.
  intros p c. unfold add_eof_entry.
  destruct (circular_buffer_full c) eqn:Hf; [repeat split |].
  pose proof (set_buffer_item_time_frame (p_writer p) c (p_timing p)) as F.
  cbv zeta in F. destruct (set_buffer_item_time _ _ _) as [t' c1].
  simpl in F. destruct F as (F1 & F2 & F3 & _).
  unfold set_end, store_item_length, store_data_byte, set_item, set_item_data.
  simpl. rewrite F1, F3. repeat split.
Qed.

Lemma outstanding_app :
  forall a b, outstanding (a ++ b) = outstanding a + outstanding b.
Proof.
  induction a as [| e a IH]; intros b; simpl; [reflexivity |].
  destruct e; rewrite ?IH; lia.
Qed.

(** A call of the child that gets past its wait releases one slot: [start]
    moves on by one, and nothing else of the indices changes. *)
Lemma child_call_effect :
  forall g ch c env ch' c' ev had_eof,
    write_from_circular g ch c env = Done (ch', c', ev, had_eof) ->
    child_blocked ch c = false
    /\ cb_start c' = c_rem (cb_start c + 1) (cb_size c)
    /\ cb_end c' = cb_end c
    /\ cb_size c' = cb_size c
    /\ outstanding ev = -1
    /\ ch_starting ch' = false.
Proof.
  intros g ch c env ch' c' ev had_eof H.
  destruct (child_blocked ch c) eqn:Hb.
  { rewrite write_from_circular_blocked in H by assumption. discriminate H. }
  split; [reflexivity |].
  destruct (eof_at_start c) eqn:He.
  - rewrite write_from_circular_eof in H by assumption.
    inversion H; subst; clear H. repeat split.
  - rewrite (write_from_circular_data g ch c env Hb He) in H. cbv zeta in H.
    inversion H; subst; clear H.
    assert (Hs : outstanding (sending c) = -1).
    { destruct (sending_shape c) as [E | [sent E]]; rewrite E; reflexivity. }
    rewrite outstanding_app, Hs.
    unfold after_sending, write_circular_data.
    destruct (write_socket_data _ _) as [r evs]. simpl.
    repeat split. destruct (0 <? _); reflexivity.
Qed.

Lemma write_to_buffered_effect :
  forall p c packet count pid got_pcr pcr p' c' ev,
    write_to_buffered_TS_output p c packet count pid got_pcr pcr
      = Done (p', c', ev) ->
    (w_started (p_writer p) = false -> circular_buffer_full c = false)
    /\ cb_start c' = cb_start c
    /\ cb_size c' = cb_size c
    /\ ((ev = [] /\ cb_end c' = cb_end c
         /\ w_started (p_writer p') = true
         /\ w_which (p_writer p') = w_which (p_writer p))
        \/ (ev = [EvCommit (w_which (p_writer p))]
            /\ cb_end c' = w_which (p_writer p)
            /\ w_started (p_writer p') = false
            /\ w_which (p_writer p')
               = c_rem (w_which (p_writer p) + 1) (cb_size c))).
Proof.
  intros p c packet count pid got_pcr pcr p' c' ev H.
  unfold write_to_buffered_TS_output in H.
  destruct (negb (w_started (p_writer p)) && circular_buffer_full c) eqn:Hw;
    [discriminate H |].
  split.
  { intros Hs. rewrite Hs in Hw. simpl in Hw. exact Hw. }
  match type of H with
  | (if ?b then _ else _) = _ => destruct b
  end.
  - injection H as H. apply flush_effect in H.
    destruct H as (H1 & H2 & H3 & H4 & H5 & H6).
    destruct (w_started (p_writer p)); simpl in *;
      (split; [exact H1 | split; [exact H3 | right; repeat split; assumption]]).
  - injection H as <- <- <-.
    destruct (w_started (p_writer p)); simpl;
      (split; [reflexivity | split; [reflexivity | left; repeat split]]).
Qed.

(** *** Buffers of two slots and more *)

Lemma ring_invariant_init :
  forall n TS_in_packet maxnowait waitfor byterate use_pcrs prime_size
         prime_speedup pcr_scale,
    2 <= n ->
    ring_invariant n
      (system_init n TS_in_packet maxnowait waitfor byterate use_pcrs prime_size
         prime_speedup pcr_scale).
Proof.
  intros n TS_in_packet maxnowait waitfor byterate use_pcrs prime_size
    prime_speedup pcr_scale Hn.
  unfold ring_invariant, system_init, held. simpl.
  repeat split; try lia.
Qed.

Ltac ring_finish :=
  repeat split; try lia; try discriminate; try assumption;
  try (rewrite held_after_commit by (assumption || lia);
       try rewrite held_after_commit by (assumption || lia); lia);
  try (rewrite held_after_release by (assumption || lia); lia).

Lemma ring_invariant_step :
  forall g n s s',
    2 <= n -> ring_invariant n s -> step g s s' -> ring_invariant n s'.
Proof.
  intros g n s s' Hn (Hsize & Hstart & Hend & Hout & Hopen) Hstep.
  unfold ring_invariant.
  destruct Hstep as [s packet count pid got_pcr pcr p' c' ev Hcl H
                    | s p' c' ev Hcl H
                    | s p' c' ev Hcl H
                    | s env ch' c' ev had_eof H]; simpl.
  - (* the parent writes a packet *)
    destruct (Hopen Hcl) as [Hwhich Hroom].
    apply write_to_buffered_effect in H.
    destruct H as (Hfull & H1 & H3 & [(-> & H2 & H5 & H6) | (-> & H2 & H5 & H6)]).
    + rewrite app_nil_r. unfold held, circular_buffer_full in *.
      rewrite H1, H2, H3, H5, H6, Hsize in *.
      ring_finish.
      intros _. destruct (w_started (p_writer (sys_parent s))); auto.
    + assert (Hnf : circular_buffer_full (sys_circular s) = false).
      { destruct (w_started (p_writer (sys_parent s))); auto. }
      unfold circular_buffer_full in Hnf. apply Z.eqb_neq in Hnf.
      rewrite Hsize in Hnf.
      pose proof (c_rem_range n (cb_end (sys_circular s) + 1) ltac:(lia) ltac:(lia)).
      rewrite outstanding_app, Hout. unfold held. simpl.
      rewrite H1, H2, H3, H5, H6, Hwhich, Hsize in *.
      ring_finish.
  - (* the parent writes the end-of-file entry *)
    destruct (Hopen Hcl) as [Hwhich Hroom].
    unfold write_EOF_to_buffered_TS_output in H.
    destruct (w_started (p_writer (sys_parent s)) && (0 <? _)) eqn:Hfl.
    + apply andb_prop in Hfl. destruct Hfl as [Hst _].
      specialize (Hroom Hst).
      unfold circular_buffer_full in Hroom. apply Z.eqb_neq in Hroom.
      rewrite Hsize in Hroom.
      destruct (internal_flush_buffered_TS_output _ _) as [[p1 c1] ev1] eqn:Efl.
      apply flush_effect in Efl. destruct Efl as (F1 & F2 & F3 & -> & F5 & F6).
      pose proof (add_eof_entry_effect p1 c1) as A.
      destruct (add_eof_entry p1 c1) as [[[p2 c2] ev2] | [[p2 c2] ev2]];
        [| discriminate H].
      injection H as <- <- <-.
      destruct A as (Af & A1 & A2 & A3 & ->).
      unfold circular_buffer_full in Af. apply Z.eqb_neq in Af.
      pose proof (c_rem_range n (cb_end (sys_circular s) + 1) ltac:(lia) ltac:(lia)).
      rewrite !outstanding_app, Hout. unfold held. simpl.
      rewrite A1, A2, A3, F1, F2, F3, Hwhich, Hsize in *.
      pose proof (c_rem_range n (c_rem (cb_end (sys_circular s) + 1) n + 1)
                    ltac:(lia) ltac:(lia)).
      ring_finish.
    + pose proof (add_eof_entry_effect (sys_parent s) (sys_circular s)) as A.
      destruct (add_eof_entry _ _) as [[[p2 c2] ev2] | [[p2 c2] ev2]];
        [| discriminate H].
      injection H as <- <- <-.
      destruct A as (Af & A1 & A2 & A3 & ->).
      unfold circular_buffer_full in Af. apply Z.eqb_neq in Af.
      rewrite Hsize in Af.
      pose proof (c_rem_range n (cb_end (sys_circular s) + 1) ltac:(lia) ltac:(lia)).
      rewrite !outstanding_app, Hout. unfold held. simpl.
      rewrite A1, A2, A3, Hsize in *.
      ring_finish.
  - (* the parent flushes, then waits for room for the end-of-file entry *)
    destruct (Hopen Hcl) as [Hwhich Hroom].
    unfold write_EOF_to_buffered_TS_output in H.
    destruct (w_started (p_writer (sys_parent s)) && (0 <? _)) eqn:Hfl.
    + apply andb_prop in Hfl. destruct Hfl as [Hst _].
      specialize (Hroom Hst).
      unfold circular_buffer_full in Hroom. apply Z.eqb_neq in Hroom.
      rewrite Hsize in Hroom.
      destruct (internal_flush_buffered_TS_output _ _) as [[p1 c1] ev1] eqn:Efl.
      apply flush_effect in Efl. destruct Efl as (F1 & F2 & F3 & -> & F5 & F6).
      pose proof (add_eof_entry_effect p1 c1) as A.
      destruct (add_eof_entry p1 c1) as [[[p2 c2] ev2] | [[p2 c2] ev2]];
        [discriminate H |].
      injection H as <- <- <-.
      destruct A as (Af & -> & -> & ->).
      pose proof (c_rem_range n (cb_end (sys_circular s) + 1) ltac:(lia) ltac:(lia)).
      rewrite !outstanding_app, Hout. unfold held. simpl.
      rewrite F1, F2, F3, F6, Hwhich, Hsize in *.
      ring_finish.
      intros Habs. rewrite F5 in Habs. discriminate Habs.
    + pose proof (add_eof_entry_effect (sys_parent s) (sys_circular s)) as A.
      destruct (add_eof_entry _ _) as [[[p2 c2] ev2] | [[p2 c2] ev2]];
        [discriminate H |].
      injection H as <- <- <-.
      destruct A as (Af & -> & -> & ->).
      rewrite app_nil_r. ring_finish.
  - (* the child sends an item, or finds the end of the file *)
    apply child_call_effect in H.
    destruct H as (Hb & H1 & H2 & H3 & Hrel & _).
    assert (Hne : cb_start (sys_circular s) <> c_rem (cb_end (sys_circular s) + 1) n).
    { unfold child_blocked in Hb.
      destruct (ch_starting (sys_child s)).
      - apply negb_false_iff in Hb. unfold circular_buffer_full in Hb.
        apply Z.eqb_eq in Hb. rewrite Hsize in Hb.
        apply full_is_not_empty; (assumption || lia).
      - unfold circular_buffer_empty in Hb. apply Z.eqb_neq in Hb.
        rewrite Hsize in Hb. exact Hb. }
    pose proof (c_rem_range n (cb_start (sys_circular s) + 1) ltac:(lia) ltac:(lia)).
    rewrite outstanding_app, Hout, Hrel. unfold held.
    rewrite H1, H2, H3, Hsize in *.
    ring_finish.
    + apply Hopen. assumption.
    + intros Hst.
      match goal with
      | Hc : sys_closed s = false, Hs : w_started _ = true |- _ =>
          destruct (Hopen Hc) as [_ Hroom]; specialize (Hroom Hs)
      end.
      unfold circular_buffer_full in *. rewrite H1, H2, H3, Hsize in *.
      apply Z.eqb_neq in Hroom. apply Z.eqb_neq.
      apply full_after_advance; (assumption || lia).
Qed.

Lemma ring_invariant_reachable :
  forall g n TS_in_packet maxnowait waitfor byterate use_pcrs prime_size
         prime_speedup pcr_scale s,
    2 <= n ->
    reachable g
      (system_init n TS_in_packet maxnowait waitfor byterate use_pcrs prime_size
         prime_speedup pcr_scale) s ->
    ring_invariant n s.
Proof.
  intros g n TS_in_packet maxnowait waitfor byterate use_pcrs prime_size
    prime_speedup pcr_scale s Hn Hr.
  induction Hr as [| s s' _ IH Hstep].
  - apply ring_invariant_init. assumption.
  - apply (ring_invariant_step g n s s'); assumption.
Qed.

(** *** The buffer of one slot *)

Lemma one_slot_invariant_step :
  forall g s s', one_slot_invariant s -> step g s s' -> one_slot_invariant s'.
Proof.
  intros g s s' (Hsize & Hstart & Hend & Hch & Hopen) Hstep.
  unfold one_slot_invariant.
  destruct Hstep as [s packet count pid got_pcr pcr p' c' ev Hcl H
                    | s p' c' ev Hcl H
                    | s p' c' ev Hcl H
                    | s env ch' c' ev had_eof H]; simpl.
  - specialize (Hopen Hcl). apply write_to_buffered_effect in H.
    destruct H as (_ & H1 & H3 & [(_ & H2 & _ & H6) | (_ & H2 & _ & H6)]);
      rewrite H1, H2, H3, ?H6, ?Hopen, ?Hsize; repeat split; assumption.
  - specialize (Hopen Hcl). unfold write_EOF_to_buffered_TS_output in H.
    destruct (internal_flush_buffered_TS_output (sys_parent s) (sys_circular s))
      as [[p1 c1] ev1] eqn:Efl.
    apply flush_effect in Efl. destruct Efl as (F1 & F2 & F3 & _).
    destruct (w_started _ && _).
    + pose proof (add_eof_entry_effect p1 c1) as A.
      destruct (add_eof_entry p1 c1) as [[[p2 c2] ev2] | [[p2 c2] ev2]];
        [| discriminate H].
      injection H as <- <- <-. destruct A as (_ & A1 & A2 & A3 & _).
      rewrite A1, A2, A3, F1, F2, F3, Hopen, Hsize.
      repeat split; try assumption. discriminate.
    + pose proof (add_eof_entry_effect (sys_parent s) (sys_circular s)) as A.
      destruct (add_eof_entry _ _) as [[[p2 c2] ev2] | [[p2 c2] ev2]];
        [| discriminate H].
      injection H as <- <- <-. destruct A as (_ & A1 & A2 & A3 & _).
      rewrite A1, A2, A3, Hend, Hsize.
      repeat split; try assumption. discriminate.
  - exfalso. specialize (Hopen Hcl). unfold write_EOF_to_buffered_TS_output in H.
    destruct (internal_flush_buffered_TS_output (sys_parent s) (sys_circular s))
      as [[p1 c1] ev1] eqn:Efl.
    apply flush_effect in Efl. destruct Efl as (F1 & F2 & F3 & _).
    destruct (w_started _ && _).
    + pose proof (add_eof_entry_effect p1 c1) as A.
      destruct (add_eof_entry p1 c1) as [[[p2 c2] ev2] | [[p2 c2] ev2]];
        [discriminate H |].
      destruct A as (Af & _). unfold circular_buffer_full in Af.
      rewrite F1, F2, F3, Hopen, Hsize, Hstart in Af. discriminate Af.
    + pose proof (add_eof_entry_effect (sys_parent s) (sys_circular s)) as A.
      destruct (add_eof_entry _ _) as [[[p2 c2] ev2] | [[p2 c2] ev2]];
        [discriminate H |].
      destruct A as (Af & _). unfold circular_buffer_full in Af.
      rewrite Hend, Hsize, Hstart in Af. discriminate Af.
  - exfalso. apply child_call_effect in H. destruct H as (Hb & _).
    unfold child_blocked, circular_buffer_full in Hb.
    rewrite Hch, Hend, Hsize, Hstart in Hb. discriminate Hb.
Qed.

Lemma one_slot_invariant_reachable :
  forall g TS_in_packet maxnowait waitfor byterate use_pcrs prime_size
         prime_speedup pcr_scale s,
    reachable g
      (system_init 1 TS_in_packet maxnowait waitfor byterate use_pcrs prime_size
         prime_speedup pcr_scale) s ->
    one_slot_invariant s.
Proof.
  intros g TS_in_packet maxnowait waitfor byterate use_pcrs prime_size
    prime_speedup pcr_scale s Hr.
  induction Hr as [| s s' _ IH Hstep].
  - unfold one_slot_invariant, system_init. simpl. repeat split.
  - apply (one_slot_invariant_step g s s'); assumption.
Qed.

(** *** Empty, full and the capacity *)



(** In every state the two processes can reach, whatever the size of the
    buffer (one slot and more), the buffer is not both empty and full. *)
Theorem never_both_empty_and_full :
  forall g n TS_in_packet maxnowait waitfor byterate use_pcrs prime_size
         prime_speedup pcr_scale s,
    1 <= n ->
    reachable g
      (system_init n TS_in_packet maxnowait waitfor byterate use_pcrs prime_size
         prime_speedup pcr_scale) s ->
    circular_buffer_empty (sys_circular s) && circular_buffer_full (sys_circular s)
      = false.
Proof.
  intros g n TS_in_packet maxnowait waitfor byterate use_pcrs prime_size
    prime_speedup pcr_scale s Hn Hr.
  destruct (Z.eq_dec n 1) as [-> | Hne].
  - apply one_slot_invariant_reachable in Hr.
    destruct Hr as (Hsize & Hstart & Hend & _).
    unfold circular_buffer_empty. rewrite Hsize, Hstart, Hend. reflexivity.
  - apply ring_invariant_reachable in Hr; [| lia].
    destruct Hr as (Hsize & Hstart & Hend & _).
    destruct (circular_buffer_full (sys_circular s)) eqn:Hf;
      [| apply andb_false_r].
    rewrite andb_true_r. unfold circular_buffer_empty, circular_buffer_full in *.
    apply Z.eqb_eq in Hf. apply Z.eqb_neq. rewrite Hsize in *.
    apply full_is_not_empty; (assumption || lia).
Qed.

(** Witness: four slots, after one packet. *)
Lemma never_both_empty_and_full_witness :
  circular_buffer_empty (sys_circular four_slot_one_write)
  && circular_buffer_full (sys_circular four_slot_one_write) = false.
Proof.
  apply (never_both_empty_and_full 0 4 1 30 1000 250000 false 10 100 1%float);
    [lia |].
  apply (reachable_step 0 _ four_slot_start); [apply reachable_init |].
  apply (step_write 0 four_slot_start (ts_packet x00) 0 0 false 0
           (sys_parent four_slot_one_write)
           (sys_circular four_slot_one_write) (sys_trace four_slot_one_write));
    vm_compute; reflexivity.
Defined.

(** With two slots or more the buffer holds what was committed and not yet
    released, and never more than [size - 1] items (so never more than
    [circ_buf_size]). *)
Theorem capacity_of_two_slots_and_more :
  forall g n TS_in_packet maxnowait waitfor byterate use_pcrs prime_size
         prime_speedup pcr_scale s,
    2 <= n ->
    reachable g
      (system_init n TS_in_packet maxnowait waitfor byterate use_pcrs prime_size
         prime_speedup pcr_scale) s ->
    outstanding (sys_trace s) = held (sys_circular s)
    /\ 0 <= outstanding (sys_trace s) <= n - 1.
Proof.
  intros g n TS_in_packet maxnowait waitfor byterate use_pcrs prime_size
    prime_speedup pcr_scale s Hn Hr.
  apply ring_invariant_reachable in Hr; [| assumption].
  destruct Hr as (Hsize & Hstart & Hend & Hout & _).
  split; [assumption |]. rewrite Hout.
  pose proof (held_range (sys_circular s)). lia.
Qed.

(** Witness: four slots, after one packet, hold one item. *)
Lemma capacity_of_two_slots_and_more_witness :
  outstanding (sys_trace four_slot_one_write) = held (sys_circular four_slot_one_write)
  /\ 0 <= outstanding (sys_trace four_slot_one_write) <= 4 - 1.
Proof.
  apply (capacity_of_two_slots_and_more 0 4 1 30 1000 250000 false 10 100 1%float);
    [lia |].
  apply (reachable_step 0 _ four_slot_start); [apply reachable_init |].
  apply (step_write 0 four_slot_start (ts_packet x00) 0 0 false 0
           (sys_parent four_slot_one_write)
           (sys_circular four_slot_one_write) (sys_trace four_slot_one_write));
    vm_compute; reflexivity.
Defined.

Lemma reachable_parent_writes :
  forall g s0 s call count,
    reachable g s0 s -> sys_closed s = false ->
    reachable g s0 (parent_writes s call count)
    /\ sys_closed (parent_writes s call count) = false.
Proof.
  intros g s0 s call count Hr Hcl. unfold parent_writes.
  destruct (write_to_buffered_TS_output _ _ _ _ _ _ _)
    as [[[p' c'] ev] | w] eqn:E.
  - split; [| reflexivity].
    apply (reachable_step g s0 s); [assumption |].
    apply (step_write g s _ _ _ _ _ _ _ _ Hcl E).
  - split; assumption.
Qed.

(** C4 (the code at [circ_buf_size = 1]). With a buffer of one slot the
    buffer is never full, so the parent never waits: two packets written (one
    packet per item) are both committed to slot 0, the second over the first,
    while the child, which waits for the buffer to fill before its first
    send, never gets past its wait. Two items are outstanding in a buffer
    made for [circ_buf_size = 1]. *)
Theorem one_slot_buffer_overruns :
  reachable 0 one_slot_start one_slot_two_writes
  /\ sys_trace one_slot_two_writes = [EvCommit 0; EvCommit 0]
  /\ outstanding (sys_trace one_slot_two_writes) = 2
  /\ data_bytes (sys_circular one_slot_two_writes) 0 188 = ts_packet x01
  /\ (forall s, reachable 0 one_slot_start s ->
        circular_buffer_full (sys_circular s) = false
        /\ child_blocked (sys_child s) (sys_circular s) = true).
Proof.
  split; [| split; [| split; [| split]]].
  - unfold one_slot_two_writes.
    destruct (reachable_parent_writes 0 one_slot_start one_slot_start
                (plain_call (ts_packet x00)) 0 (reachable_init 0 _) eq_refl)
      as [R1 C1].
    apply (reachable_parent_writes 0 one_slot_start _ _ 1 R1 C1).
  - vm_compute. reflexivity.
  - vm_compute. reflexivity.
  - vm_compute. reflexivity.
  - intros s Hr. apply one_slot_invariant_reachable in Hr.
    destruct Hr as (Hsize & Hstart & Hend & Hch & _).
    unfold child_blocked, circular_buffer_full.
    rewrite Hch, Hsize, Hstart, Hend. split; reflexivity.
Qed.

(** ** The end of the file *)

Lemma set_buffer_item_time_lengths :
  forall w c t,
    length (cb_item (snd (set_buffer_item_time w c t))) = length (cb_item c).
Proof.
  intros w c t.
  destruct (set_buffer_item_time_frame w c t) as (_ & _ & _ & _ & _ & E).
  rewrite E. apply length_insert.
Qed.

Lemma flush_frame :
  forall p c,
    let c' := snd (fst (internal_flush_buffered_TS_output p c)) in
    cb_item_size c' = cb_item_size c
    /\ cb_item_data c' = cb_item_data c
    /\ length (cb_item c') = length (cb_item c).
Proof.
  intros p c. unfold internal_flush_buffered_TS_output.
  pose proof (set_buffer_item_time_frame (p_writer p) c (p_timing p)) as F.
  pose proof (set_buffer_item_time_lengths (p_writer p) c (p_timing p)) as L.
  cbv zeta in F. destruct (set_buffer_item_time _ _ _) as [t' c1].
  simpl in *. destruct F as (_ & _ & _ & F4 & F5 & _). repeat split; assumption.
Qed.

Lemma eof_at_start_eof_at :
  forall c, eof_at_start c = eof_at c (cb_start c).
Proof. reflexivity. Qed.

(** [add_eof_entry] leaves the end-of-file entry in the slot after [end],
    with the time [set_buffer_item_time] gives the writer's item. *)
Lemma add_eof_entry_writes_entry :
  forall p c p' c' ev,
    ring_wf c ->
    w_which (p_writer p) = c_rem (cb_end c + 1) (cb_size c) ->
    add_eof_entry p c = Done (p', c', ev) ->
    cb_end c' = c_rem (cb_end c + 1) (cb_size c)
    /\ ev = [EvCommit (cb_end c')]
    /\ eof_at c' (cb_end c') = true
    /\ item_time (get_item c' (cb_end c'))
       = item_time (get_item (snd (set_buffer_item_time (p_writer p) c (p_timing p)))
                      (w_which (p_writer p))).
Proof.
  intros p c p' c' ev (Hn & Hsz & He & Hli & Hld) Hsync H.
  unfold add_eof_entry in H.
  destruct (circular_buffer_full c); [discriminate H |].
  pose proof (set_buffer_item_time_frame (p_writer p) c (p_timing p)) as F.
  pose proof (set_buffer_item_time_lengths (p_writer p) c (p_timing p)) as L.
  cbv zeta in F. destruct (set_buffer_item_time _ _ _) as [t' c1].
  simpl in F, L. destruct F as (F1 & F2 & F3 & F4 & F5 & F6).
  injection H as <- <- <-.
  set (data_pos := c_rem (cb_end c + 1) (cb_size c)) in *.
  pose proof (c_rem_range (cb_size c) (cb_end c + 1) Hn ltac:(lia)) as Hpos.
  fold data_pos in Hpos.
  assert (Hi : (Z.to_nat data_pos < length (cb_item c1))%nat) by lia.
  assert (Hd : (Z.to_nat (data_pos * cb_item_size c1) < length (cb_item_data c1))%nat).
  { rewrite F4, F5, Hld. apply Z2Nat.inj_lt; nia. }
  unfold eof_at, get_item, data_byte, store_item_length, store_data_byte,
    set_end, set_item, set_item_data, get_item. simpl.
  rewrite !list_lookup_insert_eq by assumption. simpl.
  rewrite Hsync. fold data_pos.
  repeat split.
Qed.

Ltac by_computation :=
  vm_compute; first [reflexivity | discriminate | (let H := fresh in intro H; discriminate H)].

(** C5. [write_EOF_to_buffered_TS_output] first flushes an open item (it
    is committed as it stands), then commits an item of length 1 whose first
    byte is 1 in the next slot, with the time [set_buffer_item_time] gives
    it. The child's loop stops, with status 0, in the call that finds such an
    item at [start]: that call moves [start] past the slot and sends nothing;
    a call that finds any other item goes on to the next call. *)
Theorem eof_entry_written_and_read :
  forall p c p' c' ev,
    ring_wf c ->
    w_which (p_writer p) = c_rem (cb_end c + 1) (cb_size c) ->
    write_EOF_to_buffered_TS_output p c = Done (p', c', ev) ->
    let p1 := fst (before_eof_entry p c) in
    let c1 := snd (before_eof_entry p c) in
    ev = (if open_item p c then [EvCommit (w_which (p_writer p))] else [])
         ++ [EvCommit (cb_end c')]
    /\ (open_item p c = true -> cb_end c1 = w_which (p_writer p))
    /\ cb_end c' = c_rem (cb_end c1 + 1) (cb_size c)
    /\ eof_at c' (cb_end c') = true
    /\ item_time (get_item c' (cb_end c'))
       = item_time (get_item (snd (set_buffer_item_time (p_writer p1) c1 (p_timing p1)))
                      (w_which (p_writer p1)))
    /\ forall g ch c2 env rest,
         child_blocked ch c2 = false ->
         (eof_at_start c2 = true ->
          exists ch2,
            tswrite_child_process g (env :: rest) ch c2
              = (Some 0, ch2, set_start c2 (c_rem (cb_start c2 + 1) (cb_size c2)),
                 [EvRelease (cb_start c2)]))
         /\ (eof_at_start c2 = false ->
             exists ch2 ev2,
               write_from_circular g ch c2 env
                 = Done (ch2, after_sending c2, ev2, false)
               /\ tswrite_child_process g (env :: rest) ch c2
                  = let '(st, ch3, c3, ev3) :=
                      tswrite_child_process g rest ch2 (after_sending c2) in
                    (st, ch3, c3, ev2 ++ ev3)).
Proof.
  intros p c p' c' ev Hwf Hsync H p1 c1.
  assert (Hparent :
    ev = (if open_item p c then [EvCommit (w_which (p_writer p))] else [])
         ++ [EvCommit (cb_end c')]
    /\ (open_item p c = true -> cb_end c1 = w_which (p_writer p))
    /\ cb_end c' = c_rem (cb_end c1 + 1) (cb_size c)
    /\ eof_at c' (cb_end c') = true
    /\ item_time (get_item c' (cb_end c'))
       = item_time (get_item (snd (set_buffer_item_time (p_writer p1) c1 (p_timing p1)))
                      (w_which (p_writer p1)))).
  { unfold write_EOF_to_buffered_TS_output in H. fold (open_item p c) in H.
    subst p1 c1. unfold before_eof_entry.
    destruct Hwf as (Hn & Hsz & He & Hli & Hld).
    destruct (open_item p c) eqn:Hopen.
    - pose proof (flush_frame p c) as F. cbv zeta in F.
      destruct (internal_flush_buffered_TS_output p c) as [[pf cf] evf] eqn:Efl.
      simpl in F. destruct F as (G1 & G2 & G3).
      apply flush_effect in Efl. destruct Efl as (F1 & F2 & F3 & -> & F5 & F6).
      pose proof (c_rem_range (cb_size c) (cb_end c + 1) Hn ltac:(lia)) as Hpos.
      destruct (add_eof_entry pf cf) as [[[p2 c2] ev2] | w] eqn:Ea;
        [| destruct w as [[? ?] ?]; discriminate H].
      injection H as <- <- <-.
      apply add_eof_entry_writes_entry in Ea.
      + destruct Ea as (A1 & -> & A3 & A4). simpl.
        rewrite F3 in A1. repeat split; intros; assumption.
      + unfold ring_wf. rewrite F2, F3, G1, G2, G3, Hsync.
        repeat split; try lia; try assumption.
      + rewrite F6, F2, F3. reflexivity.
    - destruct (add_eof_entry p c) as [[[p2 c2] ev2] | w] eqn:Ea;
        [| destruct w as [[? ?] ?]; discriminate H].
      injection H as <- <- <-.
      apply add_eof_entry_writes_entry in Ea; [| repeat split; assumption | assumption].
      destruct Ea as (A1 & -> & A3 & A4). simpl.
      repeat split; try assumption. discriminate. }
  destruct Hparent as (P1 & P2 & P3 & P4 & P5).
  repeat (split; [assumption |]).
  intros g ch c2 env rest Hb. split; intros He.
  - eexists. cbn [tswrite_child_process].
    rewrite (write_from_circular_eof g ch c2 env Hb He). reflexivity.
  - eexists. eexists. split; [apply (write_from_circular_data g ch c2 env Hb He) |].
    cbn [tswrite_child_process].
    rewrite (write_from_circular_data g ch c2 env Hb He). reflexivity.
Qed.

(** The witness of [eof_entry_written_and_read]: the parent has one packet
    in an open item of two; the item is flushed into slot 1 and the
    end-of-file entry goes to slot 2. *)
Lemma eof_entry_written_and_read_witness :
  write_EOF_to_buffered_TS_output half_item_parent (ws_circular half_item)
    = Done half_item_closed
  /\ snd half_item_closed = [EvCommit 1; EvCommit 2]
  /\ eof_at (snd (fst half_item_closed)) 2 = true
  /\ item_time (get_item (snd (fst half_item_closed)) 1) = 752
  /\ item_time (get_item (snd (fst half_item_closed)) 2) = 752.
Proof.
  assert (E : write_EOF_to_buffered_TS_output half_item_parent (ws_circular half_item)
              = Done half_item_closed) by (vm_compute; reflexivity).
  split; [exact E |].
  destruct half_item_closed as [[p' c'] ev] eqn:Eh.
  destruct (eof_entry_written_and_read half_item_parent (ws_circular half_item)
              p' c' ev) as (W1 & W2 & W3 & W4 & W5 & _).
  - repeat split; by_computation.
  - by_computation.
  - exact E.
  - assert (Hend : cb_end c' = 2).
    { rewrite W3. by_computation. }
    rewrite Hend in *. simpl.
    split; [rewrite W1; by_computation |].
    split; [exact W4 |].
    assert (Hc : c' = snd (fst half_item_closed)) by (rewrite Eh; reflexivity).
    split; [rewrite Hc; by_computation | rewrite W5; by_computation].
Defined.

(** *** The child's run up to the end-of-file entry *)

Lemma after_sending_frame :
  forall c,
    cb_size (after_sending c) = cb_size c
    /\ cb_item_size (after_sending c) = cb_item_size c
    /\ cb_end (after_sending c) = cb_end c
    /\ cb_start (after_sending c) = c_rem (cb_start c + 1) (cb_size c)
    /\ cb_item (after_sending c) = cb_item c
    /\ cb_item_data (after_sending c)
       = <[Z.to_nat (cb_start c * cb_item_size c) := x00]> (cb_item_data c).
Proof.
  intros c. unfold after_sending, write_circular_data.
  destruct (write_socket_data _ _). repeat split; reflexivity.
Qed.

Lemma eof_at_after_sending :
  forall c slot,
    0 < cb_item_size c -> 0 <= slot -> 0 <= cb_start c -> slot <> cb_start c ->
    eof_at (after_sending c) slot = eof_at c slot.
Proof.
  intros c slot Hi Hs Hst Hne.
  destruct (after_sending_frame c) as (_ & F2 & _ & _ & F5 & F6).
  unfold eof_at, get_item, data_byte. rewrite F2, F5, F6.
  rewrite list_lookup_insert_ne; [reflexivity |].
  intros E. apply Z2Nat.inj in E; nia.
Qed.

Lemma eof_after_sending :
  forall k c d,
    0 < cb_item_size c -> 2 <= cb_size c -> 0 <= cb_start c < cb_size c ->
    1 <= d -> d + Z.of_nat k < cb_size c ->
    eof_after k c ((cb_start c + d) mod cb_size c) ->
    eof_after k (after_sending c) ((cb_start c + d) mod cb_size c).
Proof.
  induction k as [| k IH]; intros c d Hi Hn Hs Hd Hk H.
  - cbn [eof_after] in *. rewrite eof_at_after_sending; try lia; try assumption.
    + apply Z.mod_pos_bound. lia.
    + mod_arith.
  - cbn [eof_after] in *. destruct H as [H1 H2]. split.
    + rewrite eof_at_after_sending; try lia; try assumption.
      * apply Z.mod_pos_bound. lia.
      * mod_arith.
    + destruct (after_sending_frame c) as (F1 & _). rewrite F1.
      assert (E : c_rem ((cb_start c + d) mod cb_size c + 1) (cb_size c)
                  = (cb_start c + (d + 1)) mod cb_size c).
      { unfold c_rem. rewrite Z.rem_mod_nonneg.
        - rewrite Z.add_mod_idemp_l by lia. f_equal. lia.
        - pose proof (Z.mod_pos_bound (cb_start c + d) (cb_size c)). lia.
        - lia. }
      rewrite E in *. apply IH; try assumption; lia.
Qed.

Lemma outstanding_of_call :
  forall c w,
    outstanding ((if 0 <? w then [EvWait w] else []) ++ sending c) = -1.
Proof.
  intros c w. rewrite outstanding_app.
  assert (H0 : outstanding (if 0 <? w then [EvWait w] else []) = 0)
    by (destruct (0 <? w); reflexivity).
  rewrite H0. destruct (sending_shape c) as [-> | [sent ->]]; reflexivity.
Qed.

(** Once the child has started, if the end-of-file entry is the last of the
    [k + 1] items the buffer holds, then [k + 1] calls of
    [write_from_circular] end the child's loop with status 0: every slot is
    released ([start] comes to stand one past [end]) and [end] is left
    alone. *)
Theorem child_exits_at_eof_entry :
  forall g k envs ch c,
    0 < cb_item_size c -> 2 <= cb_size c ->
    0 <= cb_start c < cb_size c -> 0 <= cb_end c < cb_size c ->
    ch_starting ch = false ->
    held c = Z.of_nat k + 1 ->
    eof_after k c (cb_start c) ->
    length envs = S k ->
    exists ch' c' ev,
      tswrite_child_process g envs ch c = (Some 0, ch', c', ev)
      /\ cb_start c' = c_rem (cb_end c + 1) (cb_size c)
      /\ cb_end c' = cb_end c
      /\ outstanding ev = - (Z.of_nat k + 1).
Proof.
  intros g k. induction k as [| k IH]; intros envs ch c Hi Hn Hs He Hst Hheld Heof Hlen.
  - destruct envs as [| env rest]; [discriminate Hlen |].
    assert (Hb : child_blocked ch c = false).
    { unfold child_blocked, circular_buffer_empty. rewrite Hst.
      apply Z.eqb_neq. unfold held in Hheld. intros E. rewrite E in Hheld.
      clear E. mod_arith. }
    cbn [eof_after] in Heof. cbn [tswrite_child_process].
    rewrite (write_from_circular_eof g ch c env Hb Heof).
    eexists. eexists. eexists. split; [reflexivity |].
    split; [| split; reflexivity].
    cbn. unfold held in Hheld. f_equal. mod_arith.
  - destruct envs as [| env rest]; [discriminate Hlen |].
    assert (Hne : cb_start c <> c_rem (cb_end c + 1) (cb_size c)).
    { unfold held in Hheld. intros E. rewrite E in Hheld. clear E. mod_arith. }
    assert (Hb : child_blocked ch c = false).
    { unfold child_blocked, circular_buffer_empty. rewrite Hst.
      apply Z.eqb_neq. exact Hne. }
    cbn [eof_after] in Heof. destruct Heof as [Hdata Hrest].
    cbn [tswrite_child_process].
    rewrite (write_from_circular_data g ch c env Hb Hdata). cbv zeta.
    destruct (after_sending_frame c) as (F1 & F2 & F3 & F4 & _).
    set (ch2 := mk_child false _ _ _ _ _ _).
    assert (Hk : Z.of_nat k + 2 < cb_size c).
    { unfold held in Hheld.
      pose proof (Z.mod_pos_bound (cb_end c + 1 - cb_start c) (cb_size c)). lia. }
    destruct (IH rest ch2 (after_sending c)) as (ch' & c' & ev' & Hrun & R1 & R2 & R3).
    + rewrite F2. assumption.
    + rewrite F1. assumption.
    + rewrite F1, F4. mod_arith.
    + rewrite F1, F3. assumption.
    + reflexivity.
    + unfold held in *. rewrite F1, F3, F4.
      rewrite held_after_release; try assumption; lia.
    + rewrite F4.
      assert (E : c_rem (cb_start c + 1) (cb_size c) = (cb_start c + 1) mod cb_size c).
      { unfold c_rem. apply Z.rem_mod_nonneg; lia. }
      rewrite E in *. apply eof_after_sending; try assumption; lia.
    + simpl in Hlen. lia.
    + rewrite Hrun. eexists. eexists. eexists. split; [reflexivity |].
      rewrite R1, R2, F1, F3. split; [reflexivity |]. split; [reflexivity |].
      rewrite outstanding_app, outstanding_of_call, R3. lia.
Qed.

(** Witness: two items and the end-of-file entry. *)
Lemma child_exits_at_eof_entry_witness :
  let s := four_slot_one_sent_and_closed in
  exists ch' c' ev,
    tswrite_child_process 0 [at_second 101; at_second 102; at_second 103]
      (sys_child s) (sys_circular s) = (Some 0, ch', c', ev)
    /\ cb_start c' = c_rem (cb_end (sys_circular s) + 1) (cb_size (sys_circular s))
    /\ cb_end c' = cb_end (sys_circular s)
    /\ outstanding ev = - (Z.of_nat 2 + 1).
Proof.
  apply (child_exits_at_eof_entry 0 2 [at_second 101; at_second 102; at_second 103]
           (sys_child four_slot_one_sent_and_closed)
           (sys_circular four_slot_one_sent_and_closed));
    first [ by_computation | split; by_computation
          | vm_compute; repeat split; reflexivity ].
Defined.

(** When the parent ends the stream before the buffer has once been full the
    child, which waits for a full buffer before its first send, never gets
    past that wait: nothing is sent and the child does not exit. *)
Theorem short_stream_is_never_sent :
  reachable 0 four_slot_start four_slot_closed_early
  /\ sys_trace four_slot_closed_early = [EvCommit 1; EvCommit 2]
  /\ eof_at (sys_circular four_slot_closed_early) 2 = true
  /\ (forall g s, reachable g four_slot_closed_early s -> s = four_slot_closed_early)
  /\ (forall g envs,
        tswrite_child_process g envs (sys_child four_slot_closed_early)
          (sys_circular four_slot_closed_early)
        = (None, sys_child four_slot_closed_early,
           sys_circular four_slot_closed_early, [])).
Proof.
  assert (Hb : child_blocked (sys_child four_slot_closed_early)
                 (sys_circular four_slot_closed_early) = true) by reflexivity.
  split; [| split; [| split; [| split]]].
  - apply (reachable_step 0 _ four_slot_one_write).
    + apply (reachable_step 0 _ four_slot_start); [apply reachable_init |].
      apply (step_write 0 four_slot_start (ts_packet x00) 0 0 false 0
               (sys_parent four_slot_one_write)
               (sys_circular four_slot_one_write) (sys_trace four_slot_one_write));
        vm_compute; reflexivity.
    + apply (step_eof 0 four_slot_one_write
               (sys_parent four_slot_closed_early)
               (sys_circular four_slot_closed_early)
               [EvCommit 2]); vm_compute; reflexivity.
  - vm_compute. reflexivity.
  - vm_compute. reflexivity.
  - intros g s Hr. induction Hr as [| s s' Hr IH Hstep]; [reflexivity |].
    subst s. inversion Hstep as [s0 packet count pid got_pcr pcr p' c' ev Hcl _ E1 E2
                                | s0 p' c' ev Hcl _ E1 E2
                                | s0 p' c' ev Hcl _ E1 E2
                                | s0 env ch' c' ev had_eof Hcall E1 E2];
      try discriminate Hcl.
    rewrite (write_from_circular_blocked g _ _ env Hb) in Hcall. discriminate Hcall.
  - intros g envs. destruct envs as [| env rest]; [reflexivity |].
    cbn [tswrite_child_process].
    rewrite (write_from_circular_blocked g _ _ env Hb). reflexivity.
Qed.

(** ** Time stamps from PCRs *)

(** *** Signs of doubles *)

Lemma binary_round_aux_sign :
  forall m e l, Dbl.sf_sign_clear (binary_round_aux prec emax false m e l) = true.
Proof.
  intros m e l. unfold binary_round_aux.
  destruct (shr_fexp prec emax m e l) as [mrs' e'].
  destruct (shr_fexp prec emax _ e' loc_Exact) as [mrs'' e''].
  destruct (shr_m mrs''); [reflexivity | | reflexivity].
  destruct (e'' <=? emax - prec); reflexivity.
Qed.

Lemma of_uint63_sign : forall n, Dbl.sign_clear (of_uint63 n).
Proof.
  intros n. unfold Dbl.sign_clear. rewrite FloatAxioms.of_uint63_spec.
  pose proof (Uint63.to_Z_bounded n) as Hn.
  destruct (Uint63.to_Z n) as [| m | m]; [reflexivity | | lia].
  unfold binary_normalize, binary_round.
  destruct (shl_align _ _ _) as [mz ez]. apply binary_round_aux_sign.
Qed.

Lemma of_int_sign : forall z, 0 <= z -> Dbl.sign_clear (Dbl.of_int z).
Proof.
  intros z Hz. unfold Dbl.of_int.
  replace (z <? 0) with false by (symmetry; apply Z.ltb_ge; lia).
  apply of_uint63_sign.
Qed.

Lemma mul_sign :
  forall x y, Dbl.sign_clear x -> Dbl.sign_clear y -> Dbl.sign_clear (x * y)%float.
Proof.
  intros x y. unfold Dbl.sign_clear. rewrite FloatAxioms.mul_spec.
  destruct (Prim2SF x) as [sx | sx | | sx mx ex];
    destruct (Prim2SF y) as [sy | sy | | sy my ey]; simpl;
    try reflexivity; intros Hx Hy;
    apply negb_true_iff in Hx, Hy; subst; try reflexivity.
  apply binary_round_aux_sign.
Qed.

Lemma div_sign :
  forall x y, Dbl.sign_clear x -> Dbl.sign_clear y -> Dbl.sign_clear (x / y)%float.
Proof.
  intros x y. unfold Dbl.sign_clear. rewrite FloatAxioms.div_spec.
  destruct (Prim2SF x) as [sx | sx | | sx mx ex];
    destruct (Prim2SF y) as [sy | sy | | sy my ey]; simpl;
    try reflexivity; intros Hx Hy;
    apply negb_true_iff in Hx, Hy; subst; try reflexivity.
  unfold SF64div, SFdiv.
  destruct (SFdiv_core_binary _ _ _ _ _ _) as [[mz ez] lz].
  apply binary_round_aux_sign.
Qed.

Lemma Prim2SF_one : Prim2SF 1 = S754_finite false 4503599627370496 (-52).
Proof. vm_compute. reflexivity. Qed.

Lemma Prim2SF_zero : Prim2SF 0 = S754_zero false.
Proof. vm_compute. reflexivity. Qed.

(** A double that is not below 1, and one that is not at or below 0, have
    the sign bit clear (or are NaNs). *)
Lemma not_below_one_sign :
  forall x, (x <? 1)%float = false -> Dbl.sign_clear x.
Proof.
  intros x. unfold Dbl.sign_clear.
  rewrite FloatAxioms.ltb_spec, Prim2SF_one. unfold SFltb, SFcompare.
  destruct (Prim2SF x) as [sx | sx | | sx mx ex]; try destruct sx;
    intros H; first [reflexivity | discriminate H].
Qed.

Lemma not_at_or_below_zero_sign :
  forall x, (x <=? 0)%float = false -> Dbl.sign_clear x.
Proof.
  intros x. unfold Dbl.sign_clear.
  rewrite FloatAxioms.leb_spec, Prim2SF_zero. unfold SFleb, SFcompare.
  destruct (Prim2SF x) as [sx | sx | | sx mx ex]; try destruct sx;
    intros H; first [reflexivity | discriminate H].
Qed.

Lemma sign_clear_not_negative :
  forall x, Dbl.sign_clear x -> Dbl.not_negative x.
Proof.
  intros x. unfold Dbl.sign_clear, Dbl.not_negative.
  rewrite FloatAxioms.ltb_spec, Prim2SF_zero. unfold SFltb, SFcompare.
  destruct (Prim2SF x) as [sx | sx | | sx mx ex]; try destruct sx;
    intros H; first [reflexivity | discriminate H].
Qed.

Lemma wrap_int32_small :
  forall z, - 2 ^ 31 <= z < 2 ^ 31 -> wrap_int32 z = z.
Proof.
  intros z Hz. unfold wrap_int32. rewrite Z.mod_small by lia. lia.
Qed.

Lemma wrap_uint64_small :
  forall z, 0 <= z < 2 ^ 64 -> wrap_uint64 z = z.
Proof. intros z Hz. unfold wrap_uint64. apply Z.mod_small. lia. Qed.

(** *** The time given to an item is never negative *)

Lemma rate0_sign :
  forall writer s, 0 <= w_rate writer -> Dbl.sign_clear (PcrTiming.rate0 writer s).
Proof.
  intros writer s Hr. unfold PcrTiming.rate0.
  destruct (pcr_rate s <? 1)%float eqn:E.
  - apply of_int_sign. assumption.
  - apply not_below_one_sign. assumption.
Qed.

Lemma primed_bytes_nonneg :
  forall writer circular s,
    timing_config_ok writer circular ->
    0 <= PcrTiming.primed_bytes writer circular s.
Proof.
  intros writer circular s (_ & _ & _ & Hp). unfold PcrTiming.primed_bytes, PcrTiming.priming.
  destruct (available_bytes s <=? 0) eqn:E; simpl.
  - rewrite wrap_int32_small by lia. lia.
  - apply Z.leb_gt in E. destruct (available_time s <=? 0)%float.
    + rewrite wrap_int32_small by lia. lia.
    + lia.
Qed.

Lemma primed_time_sign :
  forall writer circular s,
    timing_config_ok writer circular ->
    Dbl.sign_clear (PcrTiming.primed_time writer circular s).
Proof.
  intros writer circular s Hok. unfold PcrTiming.primed_time.
  pose proof (primed_bytes_nonneg writer circular s Hok) as Hb.
  destruct Hok as (Hr & Hs & _ & _).
  assert (Hprimed : Dbl.sign_clear
            (Dbl.of_int (PcrTiming.primed_bytes writer circular s) * 1000000
             / (PcrTiming.rate0 writer s * Dbl.of_int (w_prime_speedup writer) / 100))%float).
  { apply div_sign.
    - apply mul_sign; [apply of_int_sign; assumption | reflexivity].
    - apply div_sign; [| reflexivity].
      apply mul_sign; [apply rate0_sign | apply of_int_sign]; assumption. }
  unfold PcrTiming.priming in *.
  destruct (available_bytes s <=? 0); simpl; [exact Hprimed |].
  destruct (available_time s <=? 0)%float eqn:E; [exact Hprimed |].
  apply not_at_or_below_zero_sign. assumption.
Qed.

(** The microseconds [set_buffer_item_time_pcr] adds to the last time stamp
    are not negative. *)
Lemma num_microseconds_not_negative :
  forall writer circular s,
    timing_config_ok writer circular ->
    Dbl.not_negative (PcrTiming.num_microseconds writer circular s).
Proof.
  intros writer circular s Hok. apply sign_clear_not_negative.
  unfold PcrTiming.num_microseconds. apply mul_sign.
  - apply div_sign; apply of_int_sign.
    + destruct Hok as (_ & _ & Hn & _). unfold PcrTiming.num_bytes.
      rewrite wrap_int32_small by lia. lia.
    + apply primed_bytes_nonneg. assumption.
  - apply primed_time_sign. assumption.
Qed.

(** C7. When the first PCR found in an item is less than [last_pcr],
    [set_buffer_item_time_pcr] forgets that it had a first and a second PCR
    and empties the pool of bytes and time, so that its next call seeds the
    pool again (with [188 * TS_in_item * prime_size] bytes); and neither this
    call nor the next adds a negative number of microseconds to the time
    stamp. *)
Theorem pcr_rollback_is_a_discontinuity :
  forall writer circular s ii p,
    timing_config_ok writer circular ->
    find_pcr writer = Some (ii, p) ->
    pi_pcr p < last_pcr s ->
    let s' := fst (set_buffer_item_time_pcr writer circular s) in
    had_first_pcr s' = false
    /\ had_second_pcr s' = false
    /\ available_bytes s' = 0
    /\ available_time s' = 0%float
    /\ Dbl.not_negative (PcrTiming.num_microseconds writer circular s)
    /\ forall writer2 circular2,
         timing_config_ok writer2 circular2 ->
         PcrTiming.priming s' = true
         /\ PcrTiming.primed_bytes writer2 circular2 s'
            = TS_PACKET_SIZE * cb_TS_in_item circular2 * w_prime_size writer2
         /\ Dbl.not_negative (PcrTiming.num_microseconds writer2 circular2 s').
Proof.
  intros writer circular s ii p Hok Hfind Hlt s'.
  assert (Hs' : s' = PcrTiming.with_last_timestamp
                       (PcrTiming.after_pcr writer circular s p)
                       (PcrTiming.timestamp writer circular s)).
  { subst s'. unfold set_buffer_item_time_pcr. rewrite Hfind. reflexivity. }
  assert (Hafter : PcrTiming.after_pcr writer circular s p =
            mk_pcr_timing 0 0%float (pi_index p) (pi_pcr p)
              (PcrTiming.rate0 writer s) (PcrTiming.timestamp writer circular s)
              (last_timestamp s) false false
              (PcrTiming.prime_time0 writer circular s)
              (PcrTiming.prime_bytes0 writer circular s)
              (total_available_bytes s) (total_available_time s) (num_availables s)).
  { unfold PcrTiming.after_pcr.
    replace (pi_pcr p <? last_pcr s) with true by (symmetry; apply Z.ltb_lt; lia).
    reflexivity. }
  rewrite Hafter in Hs'. rewrite Hs'. simpl.
  repeat (split; [reflexivity |]).
  split; [apply num_microseconds_not_negative; assumption |].
  intros writer2 circular2 Hok2.
  split; [reflexivity |].
  split; [| apply num_microseconds_not_negative; assumption].
  unfold PcrTiming.primed_bytes, PcrTiming.priming. simpl.
  destruct Hok2 as (_ & _ & _ & Hp). apply wrap_int32_small. lia.
Qed.

(** The witness of [pcr_rollback_is_a_discontinuity]: PCRs 0 and 2538, then
    an item whose PCR is 1000. The item after that is given 94 microseconds
    out of a freshly seeded pool of 1880 bytes. *)
Lemma pcr_rollback_is_a_discontinuity_witness :
  had_first_pcr after_pcr_rollback = false
  /\ had_second_pcr after_pcr_rollback = false
  /\ available_bytes after_pcr_rollback = 0
  /\ available_time after_pcr_rollback = 0%float
  /\ Dbl.not_negative (PcrTiming.num_microseconds (pcr_writer 2 1000) pcr_ring
                         after_second_pcr)
  /\ forall writer2 circular2,
       timing_config_ok writer2 circular2 ->
       PcrTiming.priming after_pcr_rollback = true
       /\ PcrTiming.primed_bytes writer2 circular2 after_pcr_rollback
          = TS_PACKET_SIZE * cb_TS_in_item circular2 * w_prime_size writer2
       /\ Dbl.not_negative
            (PcrTiming.num_microseconds writer2 circular2 after_pcr_rollback).
Proof.
  apply (pcr_rollback_is_a_discontinuity (pcr_writer 2 1000) pcr_ring
           after_second_pcr 0%nat (mk_packet_info 2 0 true 1000)).
  - repeat split; by_computation.
  - reflexivity.
  - reflexivity.
Defined.

(** *** The rate from two PCRs *)

(** C1, as amended. When the item holds a PCR, a PCR was had before and the
    new one is not less than [last_pcr], then with [delta_pcr = pcr -
    last_pcr] and [delta_bytes = (index - last_pcr_index) * 188] the rate
    becomes [delta_bytes * 27 / delta_pcr * 1000000] (bytes a second: 27e6
    ticks a second, not 27e6 * 1e6), the pool left after paying for this item
    gains [delta_bytes] bytes and [delta_bytes * 1000000 / pcr_rate]
    microseconds, and on the second PCR only the time of the pool also has
    the initial priming time taken off and [initial_prime_bytes * 1000000 /
    pcr_rate] put on. *)
Theorem rate_from_second_pcr_on :
  forall writer circular s ii p,
    find_pcr writer = Some (ii, p) ->
    had_first_pcr s = true ->
    0 <= last_pcr s <= pi_pcr p ->
    pi_pcr p < 2 ^ 64 ->
    - 2 ^ 31 <= pi_index p - last_pcr_index s < 2 ^ 31 ->
    - 2 ^ 31 <= (pi_index p - last_pcr_index s) * TS_PACKET_SIZE < 2 ^ 31 ->
    let s' := fst (set_buffer_item_time_pcr writer circular s) in
    let delta_pcr := pi_pcr p - last_pcr s in
    let delta_bytes := (pi_index p - last_pcr_index s) * TS_PACKET_SIZE in
    let extra_time := (Dbl.of_int delta_bytes * 1000000 / pcr_rate s')%float in
    pcr_rate s'
      = (Dbl.of_int delta_bytes * 27 / Dbl.of_uint64 delta_pcr
         * Dbl.of_int 1000000)%float
    /\ available_bytes s'
       = wrap_int32 (PcrTiming.spent_bytes writer circular s + delta_bytes)
    /\ available_time s'
       = (if had_second_pcr s
          then PcrTiming.spent_time writer circular s + extra_time
          else PcrTiming.spent_time writer circular s + extra_time
               - PcrTiming.prime_time0 writer circular s
               + Dbl.of_int (PcrTiming.prime_bytes0 writer circular s) * 1000000
                 / pcr_rate s')%float
    /\ had_second_pcr s' = true
    /\ last_pcr s' = pi_pcr p
    /\ last_pcr_index s' = pi_index p.
Proof.
  intros writer circular s ii p Hfind Hfirst Hpcr Hmax Hidx Hbytes.
  cbv zeta. unfold set_buffer_item_time_pcr. rewrite Hfind. simpl.
  unfold PcrTiming.after_pcr.
  replace (pi_pcr p <? last_pcr s) with false by (symmetry; apply Z.ltb_ge; lia).
  rewrite Hfirst. simpl.
  assert (Hdp : PcrTiming.delta_pcr s p = pi_pcr p - last_pcr s).
  { unfold PcrTiming.delta_pcr. apply wrap_uint64_small. lia. }
  assert (Hdb : PcrTiming.delta_bytes s p
                = (pi_index p - last_pcr_index s) * TS_PACKET_SIZE).
  { unfold PcrTiming.delta_bytes.
    rewrite (wrap_int32_small (pi_index p - last_pcr_index s)) by lia.
    apply wrap_int32_small. lia. }
  assert (Hrate : PcrTiming.new_rate s p
                  = (Dbl.of_int ((pi_index p - last_pcr_index s) * TS_PACKET_SIZE) * 27
                     / Dbl.of_uint64 (pi_pcr p - last_pcr s)
                     * Dbl.of_int 1000000)%float).
  { unfold PcrTiming.new_rate. rewrite Hdp, Hdb. reflexivity. }
  destruct (had_second_pcr s); simpl;
    unfold PcrTiming.reprimed_time, PcrTiming.gained_time, PcrTiming.gained_bytes,
      PcrTiming.extra_time;
    rewrite Hrate, Hdb; repeat split.
Qed.

(** The witness of [rate_from_second_pcr_on]: 188 bytes between PCR 0 and
    PCR 2538 give 2000000 bytes a second. *)
Lemma rate_from_second_pcr_on_witness :
  pcr_rate after_second_pcr = 2000000%float
  /\ available_bytes after_second_pcr = 1692 + 188 - 188
  /\ had_second_pcr after_second_pcr = true
  /\ last_pcr after_second_pcr = 2538.
Proof.
  destruct (rate_from_second_pcr_on (pcr_writer 1 2538) pcr_ring after_first_pcr
              0%nat (mk_packet_info 1 0 true 2538))
    as (W1 & W2 & _ & W4 & W5 & _); try by_computation.
  - split; by_computation.
  - split; by_computation.
  - split; by_computation.
  - fold after_second_pcr in W1, W2, W4, W5.
    split; [rewrite W1; by_computation |].
    split; [rewrite W2; by_computation |].
    split; assumption.
Defined.

(** C1, counterexample. For 188 bytes between PCR 0 and PCR 2538 the code
    gives 2000000 bytes a second; the formula of the claim gives
    2000000000000. *)
Lemma pcr_rate_is_not_as_claimed : ~ pcr_rate_as_claimed.
Proof.
  intros H.
  specialize (H (pcr_writer 1 2538) pcr_ring after_first_pcr 0%nat
                (mk_packet_info 1 0 true 2538) eq_refl eq_refl).
  assert (Hle : last_pcr after_first_pcr <= pi_pcr (mk_packet_info 1 0 true 2538))
    by by_computation.
  specialize (H Hle).
  assert (Hb : (pcr_rate (fst (set_buffer_item_time_pcr (pcr_writer 1 2538) pcr_ring
                                 after_first_pcr)) <? 3000000)%float = true)
    by (vm_compute; reflexivity).
  rewrite H in Hb. vm_compute in Hb. discriminate Hb.
Qed.

(** ** Time stamps do not go back *)

(** *** Rounding a double does not take it below an integer it was above *)

Lemma digits2_pos_bounds :
  forall m : positive,
    2 ^ (Zpos (digits2_pos m) - 1) <= Zpos m < 2 ^ Zpos (digits2_pos m).
Proof.
  induction m as [m IH | m IH |]; cbn [digits2_pos].
  - rewrite Pos2Z.inj_succ. replace (Z.succ (Zpos (digits2_pos m)) - 1)
      with (Z.succ (Zpos (digits2_pos m) - 1)) by lia.
    rewrite !Z.pow_succ_r by lia. lia.
  - rewrite Pos2Z.inj_succ. replace (Z.succ (Zpos (digits2_pos m)) - 1)
      with (Z.succ (Zpos (digits2_pos m) - 1)) by lia.
    rewrite !Z.pow_succ_r by lia. lia.
  - simpl. lia.
Qed.

Lemma shr_1_half :
  forall mrs, 0 <= shr_m mrs -> shr_m (shr_1 mrs) = shr_m mrs / 2.
Proof.
  intros [m r s] Hm. simpl in Hm. unfold shr_1.
  destruct m as [| p | p]; [reflexivity | | lia].
  destruct p as [p | p |]; cbn [shr_m].
  - rewrite Pos2Z.inj_xI. apply (Z.div_unique _ _ _ 1); lia.
  - rewrite Pos2Z.inj_xO. apply (Z.div_unique _ _ _ 0); lia.
  - reflexivity.
Qed.

Lemma pow2_xO : forall p, 2 ^ Zpos p~0 = 2 ^ Zpos p * 2 ^ Zpos p.
Proof.
  intros p. rewrite <- Z.pow_add_r by lia. f_equal. lia.
Qed.

Lemma pow2_xI : forall p, 2 ^ Zpos p~1 = 2 * (2 ^ Zpos p * 2 ^ Zpos p).
Proof.
  intros p. rewrite <- Z.pow_add_r by lia. rewrite <- Z.pow_succ_r by lia.
  f_equal. lia.
Qed.

Lemma iter_shr_1 :
  forall p mrs,
    0 <= shr_m mrs ->
    shr_m (SpecFloat.iter_pos shr_1 p mrs) = shr_m mrs / 2 ^ Zpos p.
Proof.
  induction p as [p IH | p IH |]; intros mrs Hm; cbn [SpecFloat.iter_pos].
  - assert (H1 : 0 <= shr_m (shr_1 mrs)).
    { rewrite shr_1_half by assumption. apply Z.div_pos; lia. }
    assert (H2 : 0 <= shr_m (SpecFloat.iter_pos shr_1 p (shr_1 mrs))).
    { rewrite IH by assumption. apply Z.div_pos; lia. }
    rewrite IH, IH, shr_1_half by assumption.
    rewrite !Z.div_div by lia. f_equal. rewrite pow2_xI. lia.
  - assert (H2 : 0 <= shr_m (SpecFloat.iter_pos shr_1 p mrs)).
    { rewrite IH by assumption. apply Z.div_pos; lia. }
    rewrite IH, IH by assumption.
    rewrite !Z.div_div by lia. f_equal. rewrite pow2_xO. lia.
  - rewrite shr_1_half by assumption. reflexivity.
Qed.

Lemma shiftl_mono :
  forall x y e, 0 <= x <= y -> Z.shiftl x e <= Z.shiftl y e.
Proof.
  intros x y e Hxy. destruct (Z_le_gt_dec 0 e) as [He | He].
  - rewrite !Z.shiftl_mul_pow2 by lia. apply Z.mul_le_mono_nonneg_r; [| lia].
    apply Z.pow_nonneg. lia.
  - rewrite !Z.shiftl_div_pow2 by lia. apply Z.div_le_mono; [| lia].
    apply Z.pow_pos_nonneg; lia.
Qed.

(** One shift of [shr_fexp] keeps the value at or above an integer below 2^53. *)
Lemma shr_fexp_at_least :
  forall a M e l,
    0 < a < 2 ^ 53 ->
    a <= Z.shiftl (Zpos M) e ->
    let '(mrs, e1) := shr_fexp prec emax (Zpos M) e l in
    0 <= shr_m mrs /\ a <= Z.shiftl (shr_m mrs) e1.
Proof.
  intros a M e l Ha Hle. unfold shr_fexp, shr.
  assert (Hrec : shr_m (shr_record_of_loc (Zpos M) l) = Zpos M).
  { destruct l as [| []]; reflexivity. }
  cbn [Zdigits2].
  destruct (fexp prec emax (Zpos (digits2_pos M) + e) - e) as [| n | n] eqn:En;
    [rewrite Hrec; split; [lia | assumption] | | rewrite Hrec; split; [lia | assumption]].
  rewrite iter_shr_1 by (rewrite Hrec; lia). rewrite Hrec.
  split; [apply Z.div_pos; lia |].
  pose proof (digits2_pos_bounds M) as [Hlo Hhi].
  set (d := Zpos (digits2_pos M)) in *.
  assert (Hd : 0 < d) by (subst d; lia).
  unfold fexp, emin, prec, emax in En.
  destruct (Z_le_gt_dec (e + Zpos n) 0) as [Hs | Hs].
  - rewrite Z.shiftl_div_pow2 by lia.
    rewrite Z.shiftl_div_pow2 in Hle by lia.
    rewrite Z.div_div by lia. rewrite <- Z.pow_add_r by lia.
    replace (Zpos n + - (e + Zpos n)) with (- e) by lia. assumption.
  - assert (Hn : Zpos n = d - 53) by lia.
    rewrite Z.shiftl_mul_pow2 by lia.
    assert (H52 : 2 ^ 52 <= Zpos M / 2 ^ Zpos n).
    { apply Z.div_le_lower_bound; [lia |].
      rewrite <- Z.pow_add_r by lia. rewrite Hn.
      replace (d - 53 + 52) with (d - 1) by lia. assumption. }
    assert (H1 : 2 ^ 1 <= 2 ^ (e + Zpos n)) by (apply Z.pow_le_mono_r; lia).
    change (2 ^ 1) with 2 in H1. nia.
Qed.

Lemma round_nearest_even_at_least :
  forall m l, m <= round_nearest_even m l.
Proof.
  intros m l. unfold round_nearest_even.
  destruct l as [| []]; try lia. destruct (Z.even m); lia.
Qed.

Lemma binary_round_aux_at_least :
  forall a M e l,
    0 < a < 2 ^ 53 ->
    a <= Z.shiftl (Zpos M) e ->
    sf_at_least a (binary_round_aux prec emax false (Zpos M) e l).
Proof.
  intros a M e l Ha Hle. unfold binary_round_aux.
  pose proof (shr_fexp_at_least a M e l Ha Hle) as H1.
  destruct (shr_fexp prec emax (Zpos M) e l) as [mrs1 e1]. destruct H1 as [Hm1 Hv1].
  pose proof (round_nearest_even_at_least (shr_m mrs1) (loc_of_shr_record mrs1)) as Hr.
  set (m1 := round_nearest_even (shr_m mrs1) (loc_of_shr_record mrs1)) in *.
  assert (Hv2 : a <= Z.shiftl m1 e1).
  { etransitivity; [exact Hv1 | apply shiftl_mono; lia]. }
  destruct m1 as [| M1 | M1]; [rewrite Z.shiftl_0_l in Hv2; lia | | lia].
  pose proof (shr_fexp_at_least a M1 e1 loc_Exact Ha Hv2) as H2.
  destruct (shr_fexp prec emax (Zpos M1) e1 loc_Exact) as [mrs2 e2].
  destruct H2 as [Hm2 Hv3].
  destruct (shr_m mrs2) as [| m2 | m2]; [rewrite Z.shiftl_0_l in Hv3; lia | | lia].
  destruct (e2 <=? emax - prec); simpl; [assumption | exact I].
Qed.

Lemma shl_align_value :
  forall mx ex ex',
    Z.shiftl (Zpos (fst (shl_align mx ex ex'))) (snd (shl_align mx ex ex'))
    = Z.shiftl (Zpos mx) ex
    /\ (ex' <= ex -> snd (shl_align mx ex ex') = ex').
Proof.
  intros mx ex ex'. unfold shl_align.
  destruct (ex' - ex) as [| d | d] eqn:Ed; simpl fst; simpl snd.
  - split; [reflexivity | lia].
  - split; [reflexivity | lia].
  - split; [| reflexivity].
    change (PosDef.Pos.iter xO mx d) with (shift_pos d mx).
    rewrite shift_pos_correct, Z.pow_pos_fold.
    rewrite Z.mul_comm, <- Z.shiftl_mul_pow2 by lia.
    rewrite Z.shiftl_shiftl by lia. f_equal. lia.
Qed.

Lemma binary_round_at_least :
  forall a mx ex,
    0 < a < 2 ^ 53 ->
    a <= Z.shiftl (Zpos mx) ex ->
    sf_at_least a (binary_round prec emax false mx ex).
Proof.
  intros a mx ex Ha Hle. unfold binary_round.
  pose proof (shl_align_value mx ex (fexp prec emax (Zpos (digits2_pos mx) + ex)))
    as [Hv _].
  destruct (shl_align mx ex (fexp prec emax (Zpos (digits2_pos mx) + ex))) as [mz ez].
  simpl in Hv. apply binary_round_aux_at_least; [assumption |].
  rewrite Hv. assumption.
Qed.

Lemma SFadd_at_least :
  forall a x y,
    0 < a < 2 ^ 53 ->
    sf_at_least a x ->
    Dbl.sf_sign_clear y = true ->
    sf_at_least a (SFadd prec emax x y).
Proof.
  intros a x y Ha Hx Hy.
  destruct x as [sx | [] | | [] mx ex]; simpl in Hx; try contradiction;
    destruct y as [sy | [] | | [] my ey]; simpl in Hy; try discriminate Hy;
    simpl; try exact I; try assumption.
  unfold binary_normalize.
  pose proof (shl_align_value mx ex (Z.min ex ey)) as [Hvx Hex].
  pose proof (shl_align_value my ey (Z.min ex ey)) as [Hvy Hey].
  rewrite Hex in Hvx by lia.
  set (px := fst (shl_align mx ex (Z.min ex ey))) in *.
  set (py := fst (shl_align my ey (Z.min ex ey))) in *.
  change (Zpos px + Zpos py) with (Zpos (px + py)).
  apply binary_round_at_least; [assumption |].
  etransitivity; [exact Hx |]. rewrite <- Hvx. apply shiftl_mono. lia.
Qed.

Lemma of_uint63_at_least :
  forall a, 0 < a < 2 ^ 53 ->
    sf_at_least a (Prim2SF (PrimFloat.of_uint63 (Uint63.of_Z a))).
Proof.
  intros a Ha. rewrite FloatAxioms.of_uint63_spec.
  rewrite Uint63.of_Z_spec. rewrite Z.mod_small.
  2:{ change Uint63.wB with (2 ^ 63). lia. }
  unfold binary_normalize. destruct a as [| p | p]; try lia.
  apply binary_round_at_least; [assumption |]. rewrite Z.shiftl_0_r. lia.
Qed.

(** Adding a double whose sign is clear to a [uint32_t] gives, converted
    back, at least that [uint32_t]. *)
Lemma add_to_uint32_at_least :
  forall a b,
    0 <= a < 2 ^ 32 ->
    Dbl.sign_clear b ->
    Dbl.converts_to_uint32 (Dbl.of_uint32 a + b)%float ->
    a <= Dbl.to_uint32 (Dbl.of_uint32 a + b)%float < 2 ^ 32.
Proof.
  intros a b Ha Hb Hc.
  assert (Hat : 0 < a -> sf_at_least a (Prim2SF (Dbl.of_uint32 a + b)%float)).
  { intros Hpos. rewrite FloatAxioms.add_spec. apply SFadd_at_least.
    - change (2 ^ 53) with 9007199254740992. change (2 ^ 32) with 4294967296 in Ha. lia.
    - apply of_uint63_at_least.
      change (2 ^ 53) with 9007199254740992. change (2 ^ 32) with 4294967296 in Ha. lia.
    - exact Hb. }
  unfold Dbl.converts_to_uint32 in Hc. unfold Dbl.to_uint32, wrap_uint32.
  assert (Hr : 0 <= Dbl.trunc (Dbl.of_uint32 a + b)%float < 2 ^ 32).
  { destruct (Prim2SF (Dbl.of_uint32 a + b)%float); first [exact Hc | contradiction]. }
  rewrite Z.mod_small by exact Hr. split; [| lia].
  destruct (Z_le_gt_dec a 0) as [H0 | Hpos]; [lia |].
  specialize (Hat ltac:(lia)). unfold Dbl.trunc in *.
  destruct (Prim2SF (Dbl.of_uint32 a + b)%float) as [sz | sz | | sz mz ez];
    simpl in Hat; try contradiction; try destruct sz; try contradiction.
  lia.
Qed.

(** *** Runs of items *)

Lemma num_microseconds_sign :
  forall writer circular s,
    timing_config_ok writer circular ->
    Dbl.sign_clear (PcrTiming.num_microseconds writer circular s).
Proof.
  intros writer circular s Hok.
  unfold PcrTiming.num_microseconds. apply mul_sign.
  - apply div_sign; apply of_int_sign.
    + destruct Hok as (_ & _ & Hn & _). unfold PcrTiming.num_bytes.
      rewrite wrap_int32_small by lia. lia.
    + apply primed_bytes_nonneg. assumption.
  - apply primed_time_sign. assumption.
Qed.

Lemma last_timestamp_after :
  forall writer circular s,
    last_timestamp (fst (set_buffer_item_time_pcr writer circular s))
    = PcrTiming.timestamp writer circular s.
Proof. intros writer circular s. reflexivity. Qed.

(** One call of [set_buffer_item_time] whose time fits a [uint32_t] does not
    take the time back. *)
Lemma set_buffer_item_time_step :
  forall writer circular t,
    timing_config_ok writer circular ->
    time_fits writer circular t ->
    0 <= assigned_time (w_use_pcrs writer) t < 2 ^ 32 ->
    assigned_time (w_use_pcrs writer) t
    <= assigned_time (w_use_pcrs writer) (fst (set_buffer_item_time writer circular t))
    < 2 ^ 32.
Proof.
  intros writer circular t Hok Hfit Hr.
  unfold time_fits in Hfit. unfold set_buffer_item_time, assigned_time in *.
  destruct (w_use_pcrs writer).
  - destruct (set_buffer_item_time_pcr writer circular (tm_pcr t)) as [s' c'] eqn:E.
    cbn [fst tm_pcr].
    replace s' with (fst (set_buffer_item_time_pcr writer circular (tm_pcr t)))
      by (rewrite E; reflexivity).
    rewrite last_timestamp_after. unfold PcrTiming.timestamp.
    apply add_to_uint32_at_least; [exact Hr | | exact Hfit].
    apply num_microseconds_sign. assumption.
  - unfold set_buffer_item_time_plain. cbn [fst tm_last_time].
    assert (He : 0 <= plain_elapsed_time writer).
    { unfold plain_elapsed_time, Dbl.to_uint32, wrap_uint32.
      apply Z.mod_pos_bound. lia. }
    unfold wrap_uint32. rewrite Z.mod_small by lia. lia.
Qed.

(** C6, amended. In a run of items in one timing mode, well configured,
    in which the time of each item stays within a [uint32_t] (that is, below
    2^32 microseconds, some 71 minutes), no item is given a time below that
    of the item before it; this holds with PCRs (whether or not a PCR goes
    back) and without. *)
Theorem times_do_not_decrease_within_uint32 :
  forall use_pcrs writers circular t,
    run_fits use_pcrs writers circular t ->
    0 <= assigned_time use_pcrs t < 2 ^ 32 ->
    non_decreasing_from (assigned_time use_pcrs t) (item_times writers circular t)
    = true.
Proof.
  intros use_pcrs writers.
  induction writers as [| writer rest IH]; intros circular t Hrun Hr; [reflexivity |].
  destruct Hrun as (Hmode & Hok & Hfit & Hrest).
  cbn [item_times non_decreasing_from].
  destruct (set_buffer_item_time writer circular t) as [t' c'] eqn:E.
  cbn [fst snd] in Hrest. cbn [non_decreasing_from].
  pose proof (set_buffer_item_time_step writer circular t Hok Hfit) as Hstep.
  rewrite E, Hmode in Hstep. cbn [fst] in Hstep. specialize (Hstep Hr).
  rewrite Hmode. apply andb_true_intro. split.
  - apply Z.leb_le. lia.
  - apply IH; [exact Hrest | lia].
Qed.

(** The witness of [times_do_not_decrease_within_uint32]: four items with the
    PCRs 0, 2538, 1000 (which goes back) and 3538 are given the times 752,
    1504, 1598 and 1692. *)
Lemma times_do_not_decrease_within_uint32_witness :
  run_fits true [pcr_writer 0 0; pcr_writer 1 2538; pcr_writer 2 1000; pcr_writer 3 3538]
    pcr_ring timing_init
  /\ item_times [pcr_writer 0 0; pcr_writer 1 2538; pcr_writer 2 1000; pcr_writer 3 3538]
       pcr_ring timing_init = [752; 1504; 1598; 1692]
  /\ non_decreasing_from 0
       (item_times [pcr_writer 0 0; pcr_writer 1 2538; pcr_writer 2 1000; pcr_writer 3 3538]
          pcr_ring timing_init) = true.
Proof.
  assert (Hrun : run_fits true
            [pcr_writer 0 0; pcr_writer 1 2538; pcr_writer 2 1000; pcr_writer 3 3538]
            pcr_ring timing_init).
  { vm_compute. repeat split; first [reflexivity | discriminate]. }
  split; [exact Hrun |].
  split; [vm_compute; reflexivity |].
  apply (times_do_not_decrease_within_uint32 true _ pcr_ring timing_init Hrun).
  split; by_computation.
Defined.

(** C6, counterexample. At 1000 bytes a second an item of seven packets
    takes 1316000 microseconds: the 3263rd item is given the time
    4294108000, and the 3264th, 2^32 being 4294967296, the time 456704. *)
Lemma time_stamps_wrap_around :
  item_times (replicate 3264 (plain_writer 1000)) pcr_ring timing_init !! 3262%nat
  = Some 4294108000
  /\ item_times (replicate 3264 (plain_writer 1000)) pcr_ring timing_init !! 3263%nat
     = Some 456704
  /\ ~ times_never_decrease.
Proof.
  split; [vm_compute; reflexivity |].
  split; [vm_compute; reflexivity |].
  intros H.
  specialize (H false (replicate 3264 (plain_writer 1000)) pcr_ring timing_init).
  assert (Hall : Forall (fun writer => w_use_pcrs writer = false
                                       /\ timing_config_ok writer pcr_ring
                                       /\ 0 < w_rate writer
                                       /\ find_pcr writer = None)
                   (replicate 3264 (plain_writer 1000))).
  { apply Forall_replicate. split; [reflexivity |].
    split; [vm_compute; repeat split; discriminate |].
    split; reflexivity. }
  specialize (H Hall).
  assert (Hr : 0 <= assigned_time false timing_init < 2 ^ 32) by (split; by_computation).
  specialize (H Hr). vm_compute in H. discriminate H.
Qed.
